(** * libfscp session message: wire framing and crypto envelope

    A shallow embedding of [session_message.cpp] (namespace [fscp]): the
    format check run by the constructor, the signature check, the cleartext
    recovery and the two [_write] overloads.

    The translation unit relies on three collaborators whose code lives in
    other files: the common [message] base class (header layout, [length()],
    [payload()], [message::write]), the [buffer_tools] helpers together with
    the inline accessors of [session_message.hpp], and the cryptoplus RSA and
    digest wrappers.  They appear here as interfaces (type classes) or as
    definitions modelled from the specification, each marked as such. *)

From Stdlib Require Import ZArith List Lia Bool String.
From Stdlib Require Import Strings.Byte.
Import ListNotations.
Local Open Scope Z_scope.

(* ------------------------------------------------------------------ *)
(** ** Bytes and byte buffers *)

(** A [uint8_t] is a [Byte.byte]; conversions to and from [Z]. *)
Definition Z_of_byte (b : byte) : Z := Z.of_N (Byte.to_N b).

Definition byte_of_Z (z : Z) : byte :=
  match Byte.of_N (Z.to_N (z mod 256)) with
  | Some b => b
  | None => x00
  end.

(** Buffer sizes are [size_t] values; they are kept in [Z] and always come
    from the size of a buffer that exists, so they never wrap. *)
Definition len (l : list byte) : Z := Z.of_nat (List.length l).

(** [std::vector<uint8_t> v(n)]: [n] zero bytes. *)
Definition zeros (n : Z) : list byte := repeat x00 (Z.to_nat n).

(** The [n] bytes at offset [off]. *)
Definition sub (l : list byte) (off n : Z) : list byte :=
  firstn (Z.to_nat n) (skipn (Z.to_nat off) l).

(** Reading [n] bytes at offset [off]; [None] when the range leaves the
    buffer (the C++ read would be undefined behaviour). *)
Definition slice (l : list byte) (off n : Z) : option (list byte) :=
  if (0 <=? off) && (0 <=? n) && (off + n <=? len l)
  then Some (sub l off n)
  else None.

(** Writing [bs] at offset [off]; [None] when the range leaves the buffer. *)
Definition blit (l : list byte) (off : Z) (bs : list byte) : option (list byte) :=
  if (0 <=? off) && (off + len bs <=? len l)
  then Some (firstn (Z.to_nat off) l ++ bs ++ skipn (Z.to_nat (off + len bs)) l)
  else None.

(** A library primitive that fills a caller-supplied vector [dst] with the
    bytes [src] from its start.  The primitive is told the size of the
    vector ([out_len]) and writes no more than that. *)
Definition overwrite (dst src : list byte) : list byte :=
  src ++ skipn (List.length src) dst.

(** [std::vector::resize(n)]. *)
Definition resize (v : list byte) (n : Z) : list byte :=
  firstn (Z.to_nat n) v ++ zeros (n - len v).

(** [static_cast<uint16_t>(n)] on a [size_t]: the low 16 bits. *)
Definition cast_uint16 (n : Z) : Z := n mod 65536.

(** A [uint16_t] in network byte order is represented by its memory image:
    [htons v] is the two bytes that [buffer_tools::set<uint16_t>] stores,
    most significant first, and [ntohs] decodes such an image. *)
Definition htons (v : Z) : list byte := [byte_of_Z (v / 256); byte_of_Z v].

Definition ntohs (bs : list byte) : Z :=
  match bs with
  | [hi; lo] => Z_of_byte hi * 256 + Z_of_byte lo
  | _ => 0
  end.

(* ------------------------------------------------------------------ *)
(** ** Collaborator interfaces *)

(** [RSA_PKCS1_OAEP_PADDING] and [RSA_NO_PADDING]. *)
Inductive padding : Set := RSA_PKCS1_OAEP_PADDING | RSA_NO_PADDING.

(** The cryptoplus wrappers used by the file.  A primitive that the library
    reports as failed returns [None]; the wrapper then throws.  OAEP
    encryption and PSS padding draw from the library's random generator,
    whose state is threaded explicitly ([entropy]).  The digest algorithm is
    the fixed [MESSAGE_DIGEST_ALGORITHM]. *)
Class Crypto : Type := {
  pkey : Type;
  rsa_key : Type;
  entropy : Type;
  (** [operator bool] of [pkey] and of [rsa_key] *)
  pkey_nonnull : pkey -> bool;
  rsa_nonnull : rsa_key -> bool;
  (** [pkey::size()], [pkey::get_rsa_key()], [rsa_key::size()] *)
  pkey_size : pkey -> Z;
  get_rsa_key : pkey -> rsa_key;
  rsa_size : rsa_key -> Z;
  (** the longest cleartext OAEP encryption under the key accepts *)
  oaep_capacity : rsa_key -> Z;
  (** the second key is the private counterpart of the first *)
  keypair : pkey -> pkey -> Prop;
  (** [message_digest_context]: initialize, update, finalize *)
  message_digest : list byte -> list byte;
  (** [rsa_key::public_encrypt(out, out_len, in, in_len, padding)] *)
  rsa_public_encrypt :
    rsa_key -> Z -> list byte -> padding -> entropy -> option (list byte) * entropy;
  (** [rsa_key::private_decrypt(out, out_len, in, in_len, padding)] *)
  rsa_private_decrypt : rsa_key -> Z -> list byte -> padding -> option (list byte);
  (** [rsa_key::private_encrypt(out, out_len, in, in_len, padding)] *)
  rsa_private_encrypt : rsa_key -> Z -> list byte -> padding -> option (list byte);
  (** [rsa_key::public_decrypt(out, out_len, in, in_len, padding)] *)
  rsa_public_decrypt : rsa_key -> Z -> list byte -> padding -> option (list byte);
  (** PSS encoding of a digest into a block of [out_len] bytes, salt length
      [-1] (the digest length) *)
  pss_pad : rsa_key -> Z -> list byte -> entropy -> option (list byte) * entropy;
  (** PSS check of an encoded block against a digest *)
  pss_verify : rsa_key -> list byte -> list byte -> bool
}.

(** The common message header: [HEADER_LENGTH] bytes carrying the protocol
    version, the message type and the body length. *)
Class Header : Type := {
  message_type : Type;
  HEADER_LENGTH : Z;
  CURRENT_PROTOCOL_VERSION : Z;
  (** largest body length the header field can carry *)
  BODY_LENGTH_MAX : Z;
  (** the header bytes for (version, type, body length) *)
  header_bytes : Z -> message_type -> Z -> list byte;
  (** the body length stored in a header *)
  header_body_length : list byte -> Z
}.

(** Modelled from the spec: the header writer and reader of the external
    envelope (section 6), a fixed-size header from which the stamped body
    length is read back. *)
Class HeaderLaws `{Header} : Prop := {
  HEADER_LENGTH_nonneg : 0 <= HEADER_LENGTH;
  header_bytes_len : forall v t n, len (header_bytes v t n) = HEADER_LENGTH;
  header_body_length_bytes : forall v t n,
    0 <= n <= BODY_LENGTH_MAX -> header_body_length (header_bytes v t n) = n
}.

(** Modelled from the spec: the asymmetric-key primitive of sections 4.2,
    4.3 and 6.  A key has one size; OAEP encryption succeeds on a cleartext
    within the key's capacity; OAEP decryption with the private counterpart
    recovers the cleartext when the output capacity holds it; a primitive
    never returns more bytes than the capacity it was given. *)
Class RsaLaws `{Crypto} : Prop := {
  pkey_size_rsa_size : forall k, pkey_size k = rsa_size (get_rsa_key k);
  rsa_public_encrypt_ok :
    forall k cap m r,
      rsa_nonnull k = true -> rsa_size k <= cap -> len m <= oaep_capacity k ->
      exists ct r', rsa_public_encrypt k cap m RSA_PKCS1_OAEP_PADDING r = (Some ct, r');
  rsa_private_decrypt_public_encrypt :
    forall ek dk cap m r ct r' cap',
      keypair ek dk ->
      rsa_public_encrypt (get_rsa_key ek) cap m RSA_PKCS1_OAEP_PADDING r = (Some ct, r') ->
      len m <= cap' ->
      rsa_private_decrypt (get_rsa_key dk) cap' ct RSA_PKCS1_OAEP_PADDING = Some m;
  rsa_public_encrypt_len :
    forall k cap m p r ct r',
      rsa_public_encrypt k cap m p r = (Some ct, r') -> len ct <= cap;
  rsa_private_encrypt_len :
    forall k cap b p s,
      rsa_private_encrypt k cap b p = Some s -> len s <= cap
}.

(** Modelled from the spec: section 8, Boundary: a zero-length ciphertext or
    signature cannot validly decode. *)
Class RsaEmptyLaws `{Crypto} : Prop := {
  rsa_private_decrypt_empty :
    forall k cap, rsa_private_decrypt k cap [] RSA_PKCS1_OAEP_PADDING = None;
  rsa_public_decrypt_empty :
    forall k cap blk d,
      rsa_public_decrypt k cap [] RSA_NO_PADDING = Some blk ->
      pss_verify k d blk = false
}.

(** Modelled from the spec: the signing side of the asymmetric-key and PSS
    primitives (sections 4.2, 4.3 and 6).  The two keys of a pair have one
    size; the raw public-key transform undoes the raw private-key transform
    when the output capacity holds the block; a block padded for a key has
    the size of its modulus and passes the PSS check against the digest it
    was padded from. *)
Class RsaSignLaws `{Crypto} : Prop := {
  keypair_rsa_size :
    forall vk sk, keypair vk sk -> rsa_size (get_rsa_key vk) = rsa_size (get_rsa_key sk);
  rsa_public_decrypt_private_encrypt :
    forall vk sk cap blk s cap',
      keypair vk sk ->
      rsa_private_encrypt (get_rsa_key sk) cap blk RSA_NO_PADDING = Some s ->
      len blk <= cap' ->
      rsa_public_decrypt (get_rsa_key vk) cap' s RSA_NO_PADDING = Some blk;
  pss_verify_pss_pad :
    forall vk sk d r em r',
      keypair vk sk ->
      pss_pad (get_rsa_key sk) (rsa_size (get_rsa_key sk)) d r = (Some em, r') ->
      len em = rsa_size (get_rsa_key sk) /\
      pss_verify (get_rsa_key vk) d em = true
}.

(* ------------------------------------------------------------------ *)
(** ** Outcomes, memory and the execution monad *)

(** What a C++ call can do besides returning: throw, or stop the program
    (a failed [assert], an access outside a buffer). *)
Inductive exn : Set :=
| runtime_error (what : string)
| cryptographic_exception.

Inductive crash : Set :=
| assertion_failed
| out_of_bounds.

Inductive outcome (A : Type) : Type :=
| Ok (a : A)
| Throw (e : exn)
| Crash (c : crash).

Arguments Ok {A} a.
Arguments Throw {A} e.
Arguments Crash {A} c.

(** The [void* buf] argument of [get_cleartext] and [_write]: null, or the
    caller's output buffer. *)
Inductive ptr : Set := nullptr | outptr.

Section SessionMessage.

Context {CR : Crypto} {HD : Header}.

(** Calls into the collaborators and reads of the received buffer, in the
    order in which they happen. *)
Inductive event : Type :=
| EvLoad (off n : Z)
| EvDigest (data : list byte)
| EvPublicEncrypt (k : rsa_key) (input : list byte) (p : padding)
| EvPrivateDecrypt (k : rsa_key) (input : list byte) (p : padding)
| EvPrivateEncrypt (k : rsa_key) (input : list byte) (p : padding)
| EvPublicDecrypt (k : rsa_key) (input : list byte) (p : padding)
| EvPaddingAddPSS (k : rsa_key) (digest : list byte)
| EvVerifyPSS (k : rsa_key) (digest em : list byte)
| EvHeaderWrite (version : Z) (type : message_type) (body : Z).

(** The memory a call can touch: [msg] is the received buffer the message
    object views ([m_data]), [out] the caller's output buffer behind
    [outptr]; the two do not overlap.  [rng] is the state of the random
    generator and [log] the events so far. *)
Record world : Type := mkWorld {
  msg : list byte;
  out : list byte;
  rng : entropy;
  log : list event
}.

Definition M (A : Type) : Type := world -> outcome A * world.

Definition ret {A} (a : A) : M A := fun w => (Ok a, w).

Definition bind {A B} (m : M A) (f : A -> M B) : M B :=
  fun w =>
    match m w with
    | (Ok a, w') => f a w'
    | (Throw e, w') => (Throw e, w')
    | (Crash c, w') => (Crash c, w')
    end.

Definition throw {A} (e : exn) : M A := fun w => (Throw e, w).

Definition abort {A} (c : crash) : M A := fun w => (Crash c, w).

Definition emit (e : event) : M unit :=
  fun w => (Ok tt, mkWorld (msg w) (out w) (rng w) (log w ++ [e])).

(** [assert(c)] *)
Definition assert (c : bool) : M unit :=
  if c then ret tt else abort assertion_failed.

(** Read of [n] bytes at offset [off] of the received buffer. *)
Definition load (off n : Z) : M (list byte) :=
  fun w =>
    match slice (msg w) off n with
    | Some bs => (Ok bs, mkWorld (msg w) (out w) (rng w) (log w ++ [EvLoad off n]))
    | None => (Crash out_of_bounds, w)
    end.

(** Write of [bs] at offset [off] of the buffer behind [p]. *)
Definition store (p : ptr) (off : Z) (bs : list byte) : M unit :=
  fun w =>
    match p with
    | nullptr => (Crash out_of_bounds, w)
    | outptr =>
        match blit (out w) off bs with
        | Some o => (Ok tt, mkWorld (msg w) o (rng w) (log w))
        | None => (Crash out_of_bounds, w)
        end
    end.

End SessionMessage.

Declare Scope fscp_scope.
Delimit Scope fscp_scope with fscp.
Notation "x <- c1 ;; c2" := (bind c1 (fun x => c2))
  (at level 61, c1 at next level, right associativity) : fscp_scope.
Notation "c1 ;; c2" := (bind c1 (fun _ => c2))
  (at level 61, right associativity) : fscp_scope.

Local Open Scope fscp_scope.

(* ------------------------------------------------------------------ *)
(** ** The collaborators' wrappers *)

Section Wrappers.

Context {CR : Crypto} {HD : Header}.

(** [message_digest_context]: [initialize], [update], [finalize] with the
    fixed algorithm. *)
Definition digest_of (data : list byte) : M (list byte) :=
  emit (EvDigest data);;
  ret (message_digest data).

(** [rsa_key::public_encrypt] into a local vector of [out_len] bytes: the
    bytes written, or a cryptographic exception. *)
Definition public_encrypt (k : rsa_key) (out_len : Z) (input : list byte)
    (p : padding) : M (list byte) :=
  emit (EvPublicEncrypt k input p);;
  fun w =>
    match rsa_public_encrypt k out_len input p (rng w) with
    | (Some ct, r) => (Ok ct, mkWorld (msg w) (out w) r (log w))
    | (None, r) => (Throw cryptographic_exception, mkWorld (msg w) (out w) r (log w))
    end.

(** [rsa_key::private_encrypt] into a local vector. *)
Definition private_encrypt (k : rsa_key) (out_len : Z) (input : list byte)
    (p : padding) : M (list byte) :=
  emit (EvPrivateEncrypt k input p);;
  match rsa_private_encrypt k out_len input p with
  | Some s => ret s
  | None => throw cryptographic_exception
  end.

(** [rsa_key::public_decrypt] into a local vector. *)
Definition public_decrypt (k : rsa_key) (out_len : Z) (input : list byte)
    (p : padding) : M (list byte) :=
  emit (EvPublicDecrypt k input p);;
  match rsa_public_decrypt k out_len input p with
  | Some b => ret b
  | None => throw cryptographic_exception
  end.

(** [rsa_key::private_decrypt] into the caller's buffer [buf] of [buf_len]
    bytes: returns the number of bytes recovered. *)
Definition private_decrypt (k : rsa_key) (buf : ptr) (buf_len : Z)
    (input : list byte) (p : padding) : M Z :=
  emit (EvPrivateDecrypt k input p);;
  match rsa_private_decrypt k buf_len input p with
  | Some m => store buf 0 m;; ret (len m)
  | None => throw cryptographic_exception
  end.

(** [rsa_key::padding_add_PKCS1_PSS] into a local vector of [out_len]
    bytes. *)
Definition padding_add_PKCS1_PSS (k : rsa_key) (out_len : Z)
    (digest : list byte) : M (list byte) :=
  emit (EvPaddingAddPSS k digest);;
  fun w =>
    match pss_pad k out_len digest (rng w) with
    | (Some em, r) => (Ok em, mkWorld (msg w) (out w) r (log w))
    | (None, r) => (Throw cryptographic_exception, mkWorld (msg w) (out w) r (log w))
    end.

(** Modelled from the spec: [rsa_key::verify_PKCS1_PSS] (section 4.3-A,
    steps 2 to 4): the block must have the size of the key's modulus and
    pass the PSS check; anything else is reported as an exception. *)
Definition verify_PKCS1_PSS (k : rsa_key) (digest em : list byte) : M unit :=
  emit (EvVerifyPSS k digest em);;
  if (len em =? rsa_size k) && pss_verify k digest em
  then ret tt
  else throw cryptographic_exception.

(** Modelled from the spec: [message::write] (section 6, header writer):
    stamps version, type and body length at the start of the buffer. *)
Definition message_write (buf : ptr) (buf_len : Z) (version : Z)
    (type : message_type) (length : Z) : M unit :=
  emit (EvHeaderWrite version type length);;
  store buf 0 (header_bytes version type length).

(** Modelled from the spec: [message::length()], the body length carried by
    the header, and [message::payload()], the first byte after it. *)
Definition message_length : M Z :=
  h <- load 0 HEADER_LENGTH;;
  ret (header_body_length h).

Definition payload : Z := HEADER_LENGTH.

(** Modelled from the spec: [MIN_BODY_LENGTH] of [session_message.hpp], the
    two 2-byte length fields (section 3). *)
Definition MIN_BODY_LENGTH : Z := 2 * 2.

(** Modelled from the spec: the inline accessors of [session_message.hpp]
    (section 3 and the wire format of section 6): a 16-bit length in
    network byte order right after the header, the ciphertext, a second
    16-bit length, the signature. *)
Definition ciphertext_size : M Z :=
  f <- load payload 2;;
  ret (ntohs f).

Definition ciphertext : Z := payload + 2.

Definition ciphertext_signature_size : M Z :=
  cs <- ciphertext_size;;
  f <- load (payload + 2 + cs) 2;;
  ret (ntohs f).

Definition ciphertext_signature : M Z :=
  cs <- ciphertext_size;;
  ret (payload + 2 + cs + 2).

(* ------------------------------------------------------------------ *)
(** ** session_message.cpp *)

(** [session_message::check_format]; operands are evaluated left to right. *)
Definition check_format : M unit :=
  l <- message_length;;
  if l <? MIN_BODY_LENGTH
  then throw (runtime_error "bad message length")
  else
    l <- message_length;;
    cs <- ciphertext_size;;
    if l <? MIN_BODY_LENGTH + cs
    then throw (runtime_error "bad message length")
    else
      l <- message_length;;
      cs <- ciphertext_size;;
      ss <- ciphertext_signature_size;;
      if negb (l =? MIN_BODY_LENGTH + cs + ss)
      then throw (runtime_error "bad message length")
      else ret tt.

(** [session_message::session_message(const message&)]: the base object is
    copied (it views the same buffer), then the format is checked. *)
Definition session_message : M unit := check_format.

(** [session_message::check_signature] *)
Definition check_signature (key : pkey) : M unit :=
  assert (pkey_nonnull key);;
  assert (rsa_nonnull (get_rsa_key key));;
  cs <- ciphertext_size;;
  ct <- load ciphertext cs;;
  digest <- digest_of ct;;
  let padded_buf := zeros (rsa_size (get_rsa_key key)) in
  sp <- ciphertext_signature;;
  ss <- ciphertext_signature_size;;
  sg <- load sp ss;;
  written <- public_decrypt (get_rsa_key key) (len padded_buf) sg RSA_NO_PADDING;;
  let padded_buf := resize (overwrite padded_buf written) (len written) in
  verify_PKCS1_PSS (get_rsa_key key) digest padded_buf.

(** [session_message::get_cleartext] *)
Definition get_cleartext (buf : ptr) (buf_len : Z) (key : pkey) : M Z :=
  assert (pkey_nonnull key);;
  match buf with
  | outptr =>
      cs <- ciphertext_size;;
      ct <- load ciphertext cs;;
      private_decrypt (get_rsa_key key) buf buf_len ct RSA_PKCS1_OAEP_PADDING
  | nullptr => ret (rsa_size (get_rsa_key key))
  end.

(** [session_message::_write], the overload that takes a ciphertext and its
    signature (line 112). *)
Definition _write (buf : ptr) (buf_len : Z) (ciphertext ciphertext_signature : list byte)
    (type : message_type) : M Z :=
  let ciphertext_len := len ciphertext in
  let ciphertext_signature_len := len ciphertext_signature in
  let payload_len := MIN_BODY_LENGTH + ciphertext_len + ciphertext_signature_len in
  if buf_len <? HEADER_LENGTH + payload_len
  then throw (runtime_error "buf_len")
  else
    store buf HEADER_LENGTH (htons (cast_uint16 ciphertext_len));;
    store buf (HEADER_LENGTH + 2) ciphertext;;
    store buf (HEADER_LENGTH + 2 + ciphertext_len)
      (htons (cast_uint16 ciphertext_signature_len));;
    store buf (HEADER_LENGTH + 2 * 2 + ciphertext_len) ciphertext_signature;;
    message_write buf buf_len CURRENT_PROTOCOL_VERSION type payload_len;;
    ret (HEADER_LENGTH + payload_len).

(** [session_message::_write], the overload that takes a cleartext and the
    two keys (line 131). *)
Definition _write_cleartext (buf : ptr) (buf_len : Z) (cleartext : list byte)
    (enc_key sig_key : pkey) (type : message_type) : M Z :=
  let ciphertext := zeros (pkey_size enc_key) in
  written <- public_encrypt (get_rsa_key enc_key) (len ciphertext) cleartext
               RSA_PKCS1_OAEP_PADDING;;
  let ciphertext := resize (overwrite ciphertext written) (len written) in
  digest <- digest_of ciphertext;;
  let padded_buf := zeros (rsa_size (get_rsa_key sig_key)) in
  em <- padding_add_PKCS1_PSS (get_rsa_key sig_key) (len padded_buf) digest;;
  let padded_buf := overwrite padded_buf em in
  let ciphertext_signature := zeros (rsa_size (get_rsa_key sig_key)) in
  written <- private_encrypt (get_rsa_key sig_key) (len ciphertext_signature)
               padded_buf RSA_NO_PADDING;;
  let ciphertext_signature :=
    resize (overwrite ciphertext_signature written) (len written) in
  _write buf buf_len ciphertext ciphertext_signature type.

End Wrappers.

(* ------------------------------------------------------------------ *)
(** ** The fields of a framed buffer *)

Section Views.

Context {HD : Header}.

(** The values a buffer declares at the wire offsets of section 6. *)
Definition wire_body_length (b : list byte) : Z :=
  header_body_length (sub b 0 HEADER_LENGTH).

Definition wire_ciphertext_size (b : list byte) : Z :=
  ntohs (sub b HEADER_LENGTH 2).

Definition wire_signature_size (b : list byte) : Z :=
  ntohs (sub b (HEADER_LENGTH + 2 + wire_ciphertext_size b) 2).

Definition wire_ciphertext (b : list byte) : list byte :=
  sub b (HEADER_LENGTH + 2) (wire_ciphertext_size b).

Definition wire_signature (b : list byte) : list byte :=
  sub b (HEADER_LENGTH + 2 + wire_ciphertext_size b + 2) (wire_signature_size b).

(** Modelled from the spec: what the base class [message] guarantees of the
    buffer it views (section 3): the header is present and the body it
    declares lies inside the buffer. *)
Definition message_valid (b : list byte) : Prop :=
  0 <= HEADER_LENGTH /\
  0 <= wire_body_length b /\
  HEADER_LENGTH + wire_body_length b <= len b.

(** The frame the constructor accepts: the declared body is exactly the two
    length fields, the ciphertext and the signature. *)
Definition well_formed (b : list byte) : Prop :=
  wire_body_length b =
  MIN_BODY_LENGTH + wire_ciphertext_size b + wire_signature_size b.

End Views.

(** The world after more events were logged. *)
Definition logged {CR : Crypto} {HD : Header} (w : world) (evs : list event) : world :=
  mkWorld (msg w) (out w) (rng w) (log w ++ evs).

(* ------------------------------------------------------------------ *)
(** ** Expected event sequences *)

Section Events.

Context {CR : Crypto} {HD : Header}.

(** The events of [check_signature] up to the raw public-key transform. *)
Definition check_signature_reads (b : list byte) (k : rsa_key) : list event :=
  let cs := wire_ciphertext_size b in
  let ss := wire_signature_size b in
  [EvLoad HEADER_LENGTH 2;
   EvLoad (HEADER_LENGTH + 2) cs;
   EvDigest (wire_ciphertext b);
   EvLoad HEADER_LENGTH 2;
   EvLoad HEADER_LENGTH 2;
   EvLoad (HEADER_LENGTH + 2 + cs) 2;
   EvLoad (HEADER_LENGTH + 2 + cs + 2) ss;
   EvPublicDecrypt k (wire_signature b) RSA_NO_PADDING].

(** The events of [get_cleartext] with a buffer. *)
Definition get_cleartext_events (b : list byte) (k : rsa_key) : list event :=
  [EvLoad HEADER_LENGTH 2;
   EvLoad (HEADER_LENGTH + 2) (wire_ciphertext_size b);
   EvPrivateDecrypt k (wire_ciphertext b) RSA_PKCS1_OAEP_PADDING].

End Events.

(* ------------------------------------------------------------------ *)
(** ** Lifetime of a session message; side conditions *)

Section Lifetime.

Context {CR : Crypto} {HD : Header}.

(** The class invariant, read through the accessors:
    [length() == MIN_BODY_LENGTH + ciphertext_size() + ciphertext_signature_size()]. *)
Definition invariant (w : world) : Prop :=
  exists l cs ss,
    fst (message_length w) = Ok l /\
    fst (ciphertext_size w) = Ok cs /\
    fst (ciphertext_signature_size w) = Ok ss /\
    l = MIN_BODY_LENGTH + cs + ss.

(** The const member functions a caller can invoke on a constructed
    message, and a sequence of such calls. *)
Inductive operation : Type :=
| op_check_signature (key : pkey)
| op_get_cleartext (buf : ptr) (buf_len : Z) (key : pkey).

Definition run_operation (w : world) (o : operation) : world :=
  match o with
  | op_check_signature key => snd (check_signature key w)
  | op_get_cleartext buf buf_len key => snd (get_cleartext buf buf_len key w)
  end.

Definition run_operations (ops : list operation) (w : world) : world :=
  fold_left run_operation ops w.

(** A computation that never writes to the received buffer. *)
Definition keeps_msg {A} (m : M A) : Prop :=
  forall w, msg (snd (m w)) = msg w.

(** The signing key can sign: PSS padding of a digest and the raw
    private-key transform of the padded block both succeed. *)
Definition can_sign (sig_key : pkey) : Prop :=
  let k := get_rsa_key sig_key in
  forall data r,
    exists em r' sg,
      pss_pad k (len (zeros (rsa_size k))) (message_digest data) r = (Some em, r') /\
      rsa_private_encrypt k (len (zeros (rsa_size k)))
        (overwrite (zeros (rsa_size k)) em) RSA_NO_PADDING = Some sg.

End Lifetime.

Section Effects.

Context {CR : Crypto} {HD : Header}.

(** A computation whose only effect on the world is to extend the log: no
    write to either buffer, no draw from the random generator. *)
Definition logs_only {A} (m : M A) : Prop :=
  forall w, exists evs, snd (m w) = logged w evs.

End Effects.

(* ------------------------------------------------------------------ *)
(** ** Sample collaborators

    Small executable instances of the two interfaces, on which the
    development is run at concrete inputs. *)

(** A four-byte header: version, type, body length in network byte order. *)
Definition sample_header_bytes (v : Z) (t : byte) (n : Z) : list byte :=
  byte_of_Z v :: t :: htons (cast_uint16 n).

Definition sample_header_body_length (h : list byte) : Z := ntohs (sub h 2 2).

Definition sample_header : Header := {|
  message_type := byte;
  HEADER_LENGTH := 4;
  CURRENT_PROTOCOL_VERSION := 1;
  BODY_LENGTH_MAX := 65535;
  header_bytes := sample_header_bytes;
  header_body_length := sample_header_body_length
|}.

Definition bytes_eqb (a b : list byte) : bool :=
  (List.length a =? List.length b)%nat &&
  forallb (fun p => Byte.eqb (fst p) (snd p)) (combine a b).

(** Keys are numbers ([0] is the null key), a key is its own private
    counterpart, every key is 8 bytes wide and leaves room for 6 bytes of
    cleartext.  The transforms only frame their input; they stand in for
    RSA where a run needs concrete bytes. *)
Definition sample_digest (data : list byte) : list byte :=
  [byte_of_Z (fold_right (fun b acc => Z_of_byte b + acc) 0 data)].

Definition sample_public_encrypt (k cap : Z) (m : list byte) (p : padding) (r : Z)
  : option (list byte) * Z :=
  match p with
  | RSA_PKCS1_OAEP_PADDING =>
      if (8 <=? cap) && (len m <=? 6)
      then (Some (byte_of_Z (len m) :: byte_of_Z r :: m ++ zeros (6 - len m)), r + 1)
      else (None, r)
  | RSA_NO_PADDING => (None, r)
  end.

Definition sample_private_decrypt (k cap : Z) (ct : list byte) (p : padding)
  : option (list byte) :=
  match p, ct with
  | RSA_PKCS1_OAEP_PADDING, n :: _ :: rest =>
      if (len ct =? 8) && (Z_of_byte n <=? 6) && (Z_of_byte n <=? cap)
      then Some (sub rest 0 (Z_of_byte n))
      else None
  | _, _ => None
  end.

Definition sample_raw (k cap : Z) (blk : list byte) (p : padding)
  : option (list byte) :=
  match p with
  | RSA_NO_PADDING => if (len blk =? 8) && (8 <=? cap) then Some blk else None
  | RSA_PKCS1_OAEP_PADDING => None
  end.

Definition sample_pss_pad (k cap : Z) (d : list byte) (r : Z)
  : option (list byte) * Z :=
  if (8 <=? cap) && (len d <=? 6)
  then (Some (d ++ [byte_of_Z r] ++ zeros (6 - len d) ++ [xbc]), r + 1)
  else (None, r).

Definition sample_pss_verify (k : Z) (d em : list byte) : bool :=
  (len em =? 8) && bytes_eqb (sub em 0 (len d)) d && bytes_eqb (sub em 7 1) [xbc].

Definition sample_crypto : Crypto := {|
  pkey := Z;
  rsa_key := Z;
  entropy := Z;
  pkey_nonnull := fun k => negb (k =? 0);
  rsa_nonnull := fun k => negb (k =? 0);
  pkey_size := fun _ => 8;
  get_rsa_key := fun k => k;
  rsa_size := fun _ => 8;
  oaep_capacity := fun _ => 6;
  keypair := fun a b => a = b;
  message_digest := sample_digest;
  rsa_public_encrypt := sample_public_encrypt;
  rsa_private_decrypt := sample_private_decrypt;
  rsa_private_encrypt := sample_raw;
  rsa_public_decrypt := sample_raw;
  pss_pad := sample_pss_pad;
  pss_verify := sample_pss_verify
|}.

(** A world over the sample collaborators. *)
Definition sample_world (m o : list byte) : @world sample_crypto sample_header :=
  mkWorld (CR := sample_crypto) (HD := sample_header) m o 0 [].

(** A sealed message, as the sample sender produces it. *)
Definition sample_sealed : outcome Z * @world sample_crypto sample_header :=
  @_write_cleartext sample_crypto sample_header outptr 32
    [x68; x69] 5 7 x03 (sample_world [] (zeros 32)).

Definition sample_frame : list byte :=
  sub (out (snd sample_sealed)) 0 24.

(** The receiver's view of the sealed sample message. *)
Definition sample_rx : @world sample_crypto sample_header :=
  sample_world sample_frame (zeros 8).


Definition sample_empty_frame : list byte :=
  sample_header_bytes 1 x03 4 ++ [x00; x00; x00; x00].

(** A verification followed by a decryption. *)
Definition sample_operations : list (@operation sample_crypto) :=
  [@op_check_signature sample_crypto 7;
   @op_get_cleartext sample_crypto outptr 8 5].

(** The sample frame under another message type, and the sample frame with
    its signature field zeroed. *)
Definition sample_retyped_frame : list byte :=
  sample_header_bytes 1 x05 20 ++ sub sample_frame 4 20.

Definition sample_unsigned_frame : list byte :=
  sub sample_frame 0 16 ++ zeros 8.

(* ------------------------------------------------------------------ *)
(** ** Bytes and lists: basic facts *)

Lemma Z_of_byte_range (b : byte) : 0 <= Z_of_byte b <= 255.
Proof.
  unfold Z_of_byte. pose proof (Byte.to_N_bounded b). lia.
Qed.

Lemma Z_of_byte_of_Z (z : Z) : Z_of_byte (byte_of_Z z) = z mod 256.
Proof.
  unfold Z_of_byte, byte_of_Z.
  assert (Hm : 0 <= z mod 256 < 256) by (apply Z.mod_pos_bound; lia).
  destruct (Byte.of_N (Z.to_N (z mod 256))) as [b|] eqn:E.
  - apply Byte.to_of_N in E. rewrite E. apply Z2N.id. lia.
  - apply Byte.of_N_None_iff in E. lia.
Qed.

Lemma ntohs_range (bs : list byte) : 0 <= ntohs bs <= 65535.
Proof.
  unfold ntohs.
  destruct bs as [|hi [|lo [|x r]]]; try lia.
  pose proof (Z_of_byte_range hi). pose proof (Z_of_byte_range lo). lia.
Qed.

Lemma ntohs_htons (v : Z) : ntohs (htons v) = v mod 65536.
Proof.
  unfold ntohs, htons. rewrite !Z_of_byte_of_Z.
  rewrite (Z.mod_eq v 65536) by lia.
  rewrite (Z.mod_eq (v / 256) 256) by lia.
  rewrite (Z.mod_eq v 256) by lia.
  rewrite Z.div_div by lia. change (256 * 256) with 65536. lia.
Qed.

Lemma ntohs_htons_cast (n : Z) : ntohs (htons (cast_uint16 n)) = n mod 65536.
Proof.
  rewrite ntohs_htons. unfold cast_uint16. apply Z.mod_mod. lia.
Qed.

Lemma len_htons (v : Z) : len (htons v) = 2.
Proof. reflexivity. Qed.

Lemma len_nonneg (l : list byte) : 0 <= len l.
Proof. unfold len. lia. Qed.

Lemma len_app (a b : list byte) : len (a ++ b) = len a + len b.
Proof. unfold len. rewrite length_app. lia. Qed.

Lemma len_zero_nil (l : list byte) : len l = 0 -> l = [].
Proof. destruct l; [reflexivity | unfold len; simpl; lia]. Qed.

Lemma firstn_len_app (a b : list byte) : firstn (List.length a) (a ++ b) = a.
Proof. induction a; simpl; [destruct b; reflexivity | now rewrite IHa]. Qed.

Lemma skipn_len_app (a b : list byte) : skipn (List.length a) (a ++ b) = b.
Proof. induction a; simpl; [reflexivity | assumption]. Qed.

Lemma sub_at (pre mid post : list byte) (off n : Z) :
  off = len pre -> n = len mid -> sub (pre ++ mid ++ post) off n = mid.
Proof.
  intros -> ->. unfold sub, len. rewrite !Nat2Z.id.
  rewrite skipn_len_app. apply firstn_len_app.
Qed.

Lemma slice_sub (l : list byte) (off n : Z) :
  0 <= off -> 0 <= n -> off + n <= len l -> slice l off n = Some (sub l off n).
Proof.
  intros. unfold slice.
  replace ((0 <=? off) && (0 <=? n) && (off + n <=? len l)) with true; [reflexivity|].
  symmetry. rewrite !andb_true_iff, !Z.leb_le. lia.
Qed.

Lemma blit_at (pre old new post : list byte) (off : Z) :
  off = len pre -> len old = len new ->
  blit (pre ++ old ++ post) off new = Some (pre ++ new ++ post).
Proof.
  intros -> Hl. unfold blit.
  pose proof (len_nonneg pre). pose proof (len_nonneg post).
  rewrite !len_app.
  replace ((0 <=? len pre) && (len pre + len new <=? len pre + (len old + len post)))
    with true by (symmetry; rewrite andb_true_iff, !Z.leb_le; lia).
  f_equal. unfold len in *.
  rewrite Nat2Z.id, firstn_len_app. f_equal. f_equal.
  replace (Z.to_nat (Z.of_nat (List.length pre) + Z.of_nat (List.length new)))
    with (List.length (pre ++ old)) by (rewrite length_app; lia).
  rewrite app_assoc. apply skipn_len_app.
Qed.

Lemma split_at (l : list byte) (n : Z) :
  0 <= n <= len l -> exists a b, l = a ++ b /\ len a = n.
Proof.
  intros Hn. exists (firstn (Z.to_nat n) l), (skipn (Z.to_nat n) l). split.
  - symmetry. apply firstn_skipn.
  - unfold len in *. rewrite length_firstn. lia.
Qed.

(** Bytes appended to a buffer are not seen by a read inside it. *)
Lemma sub_app_l (b e : list byte) (off n : Z) :
  0 <= off -> 0 <= n -> off + n <= len b -> sub (b ++ e) off n = sub b off n.
Proof.
  intros Ho Hn Hl.
  destruct (@split_at b off) as (p & r0 & E0 & L0); [lia|].
  assert (len r0 = len b - off) by (rewrite E0, len_app; lia).
  destruct (@split_at r0 n) as (a & r1 & E1 & L1); [lia|].
  subst b r0.
  replace ((p ++ a ++ r1) ++ e) with (p ++ a ++ (r1 ++ e))
    by now rewrite <- !app_assoc.
  now rewrite !sub_at by lia.
Qed.

Lemma resize_overwrite (v written : list byte) :
  resize (overwrite v written) (len written) = written.
Proof.
  unfold resize, overwrite, zeros, len. rewrite Nat2Z.id, firstn_len_app.
  rewrite length_app.
  replace (Z.to_nat _) with 0%nat by lia.
  apply app_nil_r.
Qed.

(* ------------------------------------------------------------------ *)
(** ** Running monadic code *)

Section Runs.

Context {CR : Crypto} {HD : Header}.

Lemma bind_ok {A B} (m : M A) (f : A -> M B) (w w' : world) (a : A) :
  m w = (Ok a, w') -> bind m f w = f a w'.
Proof. intros E. unfold bind. now rewrite E. Qed.

Lemma bind_throw {A B} (m : M A) (f : A -> M B) (w w' : world) (e : exn) :
  m w = (Throw e, w') -> bind m f w = (Throw e, w').
Proof. intros E. unfold bind. now rewrite E. Qed.

Lemma logged_logged (w : world) (a b : list event) :
  logged (logged w a) b = logged w (a ++ b).
Proof. unfold logged. simpl. now rewrite app_assoc. Qed.

End Runs.

(** One step of a run: the first command of a sequence returns normally. *)
Ltac run_step L :=
  erewrite bind_ok by (apply L; cbn [msg out rng log logged]; lia);
  cbn [msg out rng log logged]; rewrite ?logged_logged; cbn [app].

Section Accessors.

Context {CR : Crypto} {HD : Header}.

Lemma emit_run (e : event) (w : world) : emit e w = (Ok tt, logged w [e]).
Proof. reflexivity. Qed.

Lemma assert_run (w : world) : assert true w = (Ok tt, w).
Proof. reflexivity. Qed.

Lemma load_run (w : world) (off n : Z) :
  0 <= off -> 0 <= n -> off + n <= len (msg w) ->
  load off n w = (Ok (sub (msg w) off n), logged w [EvLoad off n]).
Proof.
  intros. unfold load. now rewrite slice_sub by assumption.
Qed.

Lemma store_run (w : world) (off : Z) (bs o : list byte) :
  blit (out w) off bs = Some o ->
  store outptr off bs w = (Ok tt, mkWorld (msg w) o (rng w) (log w)).
Proof. intros E. unfold store. now rewrite E. Qed.

Lemma message_length_run (w : world) :
  0 <= HEADER_LENGTH -> HEADER_LENGTH <= len (msg w) ->
  message_length w =
  (Ok (wire_body_length (msg w)), logged w [EvLoad 0 HEADER_LENGTH]).
Proof.
  intros. unfold message_length.
  erewrite bind_ok by (apply load_run; lia). reflexivity.
Qed.

Lemma ciphertext_size_run (w : world) :
  0 <= HEADER_LENGTH -> HEADER_LENGTH + 2 <= len (msg w) ->
  ciphertext_size w =
  (Ok (wire_ciphertext_size (msg w)), logged w [EvLoad HEADER_LENGTH 2]).
Proof.
  intros. unfold ciphertext_size, payload.
  erewrite bind_ok by (apply load_run; lia). reflexivity.
Qed.

Lemma ciphertext_signature_size_run (w : world) :
  0 <= HEADER_LENGTH ->
  HEADER_LENGTH + 2 + wire_ciphertext_size (msg w) + 2 <= len (msg w) ->
  ciphertext_signature_size w =
  (Ok (wire_signature_size (msg w)),
   logged w [EvLoad HEADER_LENGTH 2;
             EvLoad (HEADER_LENGTH + 2 + wire_ciphertext_size (msg w)) 2]).
Proof.
  intros H0 H1. unfold ciphertext_signature_size, payload.
  pose proof (ntohs_range (sub (msg w) HEADER_LENGTH 2)) as Hr.
  fold (wire_ciphertext_size (msg w)) in Hr.
  erewrite bind_ok by (apply ciphertext_size_run; lia).
  erewrite bind_ok by (apply load_run; cbn [msg logged]; lia).
  cbn [msg logged]. rewrite logged_logged. reflexivity.
Qed.

Lemma ciphertext_signature_run (w : world) :
  0 <= HEADER_LENGTH -> HEADER_LENGTH + 2 <= len (msg w) ->
  ciphertext_signature w =
  (Ok (HEADER_LENGTH + 2 + wire_ciphertext_size (msg w) + 2),
   logged w [EvLoad HEADER_LENGTH 2]).
Proof.
  intros. unfold ciphertext_signature, payload.
  erewrite bind_ok by (apply ciphertext_size_run; lia). reflexivity.
Qed.

(** The outcome and the reads of [check_format] on a valid message. *)
Lemma check_format_run (w : world) :
  message_valid (msg w) ->
  let L := wire_body_length (msg w) in
  let cs := wire_ciphertext_size (msg w) in
  let ss := wire_signature_size (msg w) in
  let hd := EvLoad 0 HEADER_LENGTH in
  let lc := EvLoad HEADER_LENGTH 2 in
  let ls := EvLoad (HEADER_LENGTH + 2 + cs) 2 in
  check_format w =
  if L <? MIN_BODY_LENGTH
  then (Throw (runtime_error "bad message length"), logged w [hd])
  else if L <? MIN_BODY_LENGTH + cs
  then (Throw (runtime_error "bad message length"), logged w [hd; hd; lc])
  else if negb (L =? MIN_BODY_LENGTH + cs + ss)
  then (Throw (runtime_error "bad message length"),
        logged w [hd; hd; lc; hd; lc; lc; ls])
  else (Ok tt, logged w [hd; hd; lc; hd; lc; lc; ls]).
Proof.
  intros (H0 & HL & Hb) L cs ss hd lc ls.
  fold L in HL, Hb.
  assert (Hcs : 0 <= cs <= 65535) by apply ntohs_range.
  unfold check_format.
  run_step message_length_run. fold L.
  destruct (L <? MIN_BODY_LENGTH) eqn:E1; [reflexivity|].
  apply Z.ltb_ge in E1. unfold MIN_BODY_LENGTH in E1.
  run_step message_length_run.
  run_step ciphertext_size_run. fold L cs.
  destruct (L <? MIN_BODY_LENGTH + cs) eqn:E2; [reflexivity|].
  apply Z.ltb_ge in E2. unfold MIN_BODY_LENGTH in E2.
  run_step message_length_run.
  run_step ciphertext_size_run.
  erewrite bind_ok
    by (apply ciphertext_signature_size_run; cbn [msg logged]; fold cs; lia).
  cbn [msg logged]. rewrite ?logged_logged. cbn [app]. fold L cs ss ls.
  destruct (negb (L =? MIN_BODY_LENGTH + cs + ss)); reflexivity.
Qed.

End Accessors.

(* ------------------------------------------------------------------ *)
(** ** The framing written by [_write] *)

Lemma blit_eq (l l' pre old new post : list byte) (off : Z) :
  l = pre ++ old ++ post -> l' = pre ++ new ++ post ->
  off = len pre -> len old = len new ->
  blit l off new = Some l'.
Proof. intros -> -> Ho Hl. now apply blit_at. Qed.

Lemma split_frame (o : list byte) (a b c d e : Z) :
  0 <= a -> 0 <= b -> 0 <= c -> 0 <= d -> 0 <= e ->
  a + b + c + d + e <= len o ->
  exists p0 p1 p2 p3 p4,
    o = p0 ++ p1 ++ p2 ++ p3 ++ p4 ++ skipn (Z.to_nat (a + b + c + d + e)) o /\
    len p0 = a /\ len p1 = b /\ len p2 = c /\ len p3 = d /\ len p4 = e.
Proof.
  intros Ha Hb Hc Hd He Hl.
  destruct (@split_at o a) as (p0 & r0 & E0 & L0); [lia|].
  assert (len r0 = len o - a) by (rewrite E0, len_app; lia).
  destruct (@split_at r0 b) as (p1 & r1 & E1 & L1); [lia|].
  assert (len r1 = len r0 - b) by (rewrite E1, len_app; lia).
  destruct (@split_at r1 c) as (p2 & r2 & E2 & L2); [lia|].
  assert (len r2 = len r1 - c) by (rewrite E2, len_app; lia).
  destruct (@split_at r2 d) as (p3 & r3 & E3 & L3); [lia|].
  assert (len r3 = len r2 - d) by (rewrite E3, len_app; lia).
  destruct (@split_at r3 e) as (p4 & r4 & E4 & L4); [lia|].
  exists p0, p1, p2, p3, p4.
  assert (Eo : o = (p0 ++ p1 ++ p2 ++ p3 ++ p4) ++ r4).
  { rewrite E0, E1, E2, E3, E4. now rewrite <- !app_assoc. }
  assert (Er : skipn (Z.to_nat (a + b + c + d + e)) o = r4).
  { rewrite Eo at 1.
    replace (Z.to_nat (a + b + c + d + e))
      with (List.length (p0 ++ p1 ++ p2 ++ p3 ++ p4)).
    - apply skipn_len_app.
    - unfold len in *. rewrite !length_app. lia. }
  rewrite Er. repeat split; try assumption.
  rewrite Eo. now rewrite <- !app_assoc.
Qed.

Section WriteRuns.

Context {CR : Crypto} {HD : Header}.

(** [_write] refuses a buffer that is too small before touching anything. *)
Lemma _write_short (w : world) (buf : ptr) (buf_len : Z) (ct sg : list byte)
    (ty : message_type) :
  buf_len < HEADER_LENGTH + (MIN_BODY_LENGTH + len ct + len sg) ->
  _write buf buf_len ct sg ty w = (Throw (runtime_error "buf_len"), w).
Proof.
  intros Hs. unfold _write.
  apply Z.ltb_lt in Hs. now rewrite Hs.
Qed.

(** With enough room, [_write] lays the frame out at the start of the
    buffer and leaves the bytes behind it alone. *)
Lemma _write_run {HL : HeaderLaws} (w : world) (buf_len : Z) (ct sg : list byte)
    (ty : message_type) :
  let body := MIN_BODY_LENGTH + len ct + len sg in
  HEADER_LENGTH + body <= buf_len -> buf_len <= len (out w) ->
  _write outptr buf_len ct sg ty w =
  (Ok (HEADER_LENGTH + body),
   mkWorld (msg w)
     (header_bytes CURRENT_PROTOCOL_VERSION ty body ++
      htons (cast_uint16 (len ct)) ++ ct ++
      htons (cast_uint16 (len sg)) ++ sg ++
      skipn (Z.to_nat (HEADER_LENGTH + body)) (out w))
     (rng w)
     (log w ++ [EvHeaderWrite CURRENT_PROTOCOL_VERSION ty body])).
Proof.
  intros body Hn Hc. unfold _write. fold body.
  destruct (buf_len <? HEADER_LENGTH + body) eqn:E; [apply Z.ltb_lt in E; lia|].
  clear E.
  pose proof HEADER_LENGTH_nonneg as H0.
  pose proof (len_nonneg ct) as Hct. pose proof (len_nonneg sg) as Hsg.
  destruct (@split_frame (out w) HEADER_LENGTH 2 (len ct) 2 (len sg))
    as (p0 & p1 & p2 & p3 & p4 & Eo & L0 & L1 & L2 & L3 & L4);
    try lia; [unfold body, MIN_BODY_LENGTH in *; lia|].
  replace (HEADER_LENGTH + 2 + len ct + 2 + len sg)
    with (HEADER_LENGTH + body) in Eo by (unfold body, MIN_BODY_LENGTH; lia).
  set (rest := skipn (Z.to_nat (HEADER_LENGTH + body)) (out w)) in *.
  set (f1 := htons (cast_uint16 (len ct))).
  set (f2 := htons (cast_uint16 (len sg))).
  erewrite bind_ok.
  2:{ apply store_run. rewrite Eo.
      apply (@blit_eq _ _ (p0) p1 _ (p2 ++ p3 ++ p4 ++ rest) _);
        [reflexivity | reflexivity | lia | rewrite L1; reflexivity]. }
  erewrite bind_ok.
  2:{ apply store_run. cbn [out].
      apply (@blit_eq _ _ (p0 ++ f1) p2 _ (p3 ++ p4 ++ rest) _);
        [now rewrite <- !app_assoc | reflexivity
        | rewrite len_app; unfold f1; rewrite len_htons; lia | assumption]. }
  erewrite bind_ok.
  2:{ apply store_run. cbn [out].
      apply (@blit_eq _ _ ((p0 ++ f1) ++ ct) p3 _ (p4 ++ rest) _);
        [now rewrite <- !app_assoc | reflexivity
        | rewrite !len_app; unfold f1; rewrite len_htons; lia
        | rewrite L3; reflexivity]. }
  erewrite bind_ok.
  2:{ apply store_run. cbn [out].
      apply (@blit_eq _ _ (((p0 ++ f1) ++ ct) ++ f2) p4 _ (rest) _);
        [now rewrite <- !app_assoc | reflexivity
        | rewrite !len_app; unfold f1, f2; rewrite !len_htons; lia
        | assumption]. }
  unfold message_write.
  erewrite bind_ok.
  2:{ erewrite bind_ok by apply emit_run.
      apply store_run. cbn [out logged].
      apply (@blit_eq _ _ ([]) p0 _ (f1 ++ ct ++ f2 ++ sg ++ rest) _);
        [now rewrite <- !app_assoc | reflexivity | reflexivity
        | rewrite header_bytes_len; assumption]. }
  reflexivity.
Qed.

(** A normal return of [_write] means the capacity check passed, the buffer
    was not null and the header was stamped last. *)
Lemma _write_ok_inv (w w' : world) (buf : ptr) (buf_len n : Z) (ct sg : list byte)
    (ty : message_type) :
  _write buf buf_len ct sg ty w = (Ok n, w') ->
  let body := MIN_BODY_LENGTH + len ct + len sg in
  n = HEADER_LENGTH + body /\ HEADER_LENGTH + body <= buf_len /\ buf = outptr /\
  msg w' = msg w /\ rng w' = rng w /\
  log w' = log w ++ [EvHeaderWrite CURRENT_PROTOCOL_VERSION ty body].
Proof.
  intros E body. unfold _write in E. fold body in E.
  destruct (buf_len <? HEADER_LENGTH + body) eqn:Ec; [discriminate|].
  apply Z.ltb_ge in Ec.
  destruct buf; [discriminate|].
  unfold bind, store, message_write, bind, emit, store, ret in E. cbn [out msg rng log] in E.
  repeat match type of E with
         | context [match blit ?l ?o ?b with _ => _ end] =>
             destruct (blit l o b); [|discriminate]
         end.
  injection E as <- <-. cbn. repeat split; try reflexivity; lia.
Qed.

End WriteRuns.

(* ------------------------------------------------------------------ *)
(** ** Runs of the crypto envelope *)

Section CryptoRuns.

Context {CR : Crypto} {HD : Header}.

Lemma digest_of_run (data : list byte) (w : world) :
  digest_of data w = (Ok (message_digest data), logged w [EvDigest data]).
Proof. reflexivity. Qed.

Lemma public_decrypt_run (k : rsa_key) (cap : Z) (input : list byte) (p : padding)
    (w : world) :
  public_decrypt k cap input p w =
  match rsa_public_decrypt k cap input p with
  | Some b => (Ok b, logged w [EvPublicDecrypt k input p])
  | None => (Throw cryptographic_exception, logged w [EvPublicDecrypt k input p])
  end.
Proof.
  unfold public_decrypt. erewrite bind_ok by apply emit_run.
  destruct (rsa_public_decrypt k cap input p); reflexivity.
Qed.

Lemma verify_PKCS1_PSS_run (k : rsa_key) (d em : list byte) (w : world) :
  verify_PKCS1_PSS k d em w =
  (if (len em =? rsa_size k) && pss_verify k d em
   then Ok tt else Throw cryptographic_exception,
   logged w [EvVerifyPSS k d em]).
Proof.
  unfold verify_PKCS1_PSS. erewrite bind_ok by apply emit_run.
  destruct ((len em =? rsa_size k) && pss_verify k d em); reflexivity.
Qed.

Lemma check_signature_run (w : world) (key : pkey) :
  message_valid (msg w) -> well_formed (msg w) ->
  pkey_nonnull key = true -> rsa_nonnull (get_rsa_key key) = true ->
  let k := get_rsa_key key in
  let d := message_digest (wire_ciphertext (msg w)) in
  let evs := check_signature_reads (msg w) k in
  check_signature key w =
  match rsa_public_decrypt k (len (zeros (rsa_size k))) (wire_signature (msg w))
          RSA_NO_PADDING with
  | None => (Throw cryptographic_exception, logged w evs)
  | Some blk =>
      (if (len blk =? rsa_size k) && pss_verify k d blk
       then Ok tt else Throw cryptographic_exception,
       logged w (evs ++ [EvVerifyPSS k d blk]))
  end.
Proof.
  intros (H0 & HL & Hb) Hwf Hk Hr k d evs.
  unfold well_formed, MIN_BODY_LENGTH in Hwf.
  pose proof (ntohs_range (sub (msg w) HEADER_LENGTH 2)) as Hcs.
  fold (wire_ciphertext_size (msg w)) in Hcs.
  pose proof (ntohs_range
                (sub (msg w) (HEADER_LENGTH + 2 + wire_ciphertext_size (msg w)) 2)) as Hss.
  fold (wire_signature_size (msg w)) in Hss.
  unfold check_signature, ciphertext, payload. rewrite Hk, Hr. fold k.
  erewrite bind_ok by apply assert_run.
  erewrite bind_ok by apply assert_run.
  run_step ciphertext_size_run.
  run_step load_run.
  erewrite bind_ok by apply digest_of_run.
  cbn [msg out rng log logged]; rewrite ?logged_logged; cbn [app].
  run_step ciphertext_signature_run.
  run_step ciphertext_signature_size_run.
  run_step load_run.
  fold (wire_ciphertext (msg w)). fold (wire_signature (msg w)). fold d.
  destruct (rsa_public_decrypt k (len (zeros (rsa_size k))) (wire_signature (msg w))
              RSA_NO_PADDING) as [blk|] eqn:E.
  - erewrite bind_ok by (rewrite public_decrypt_run, E; reflexivity).
    rewrite resize_overwrite, verify_PKCS1_PSS_run.
    rewrite ?logged_logged. reflexivity.
  - erewrite bind_throw by (rewrite public_decrypt_run, E; reflexivity).
    rewrite ?logged_logged. reflexivity.
Qed.

Lemma get_cleartext_run (w : world) (buf_len : Z) (key : pkey) :
  0 <= HEADER_LENGTH ->
  HEADER_LENGTH + 2 + wire_ciphertext_size (msg w) <= len (msg w) ->
  pkey_nonnull key = true ->
  let k := get_rsa_key key in
  let evs := get_cleartext_events (msg w) k in
  get_cleartext outptr buf_len key w =
  match rsa_private_decrypt k buf_len (wire_ciphertext (msg w))
          RSA_PKCS1_OAEP_PADDING with
  | None => (Throw cryptographic_exception, logged w evs)
  | Some m =>
      match blit (out w) 0 m with
      | Some o => (Ok (len m), mkWorld (msg w) o (rng w) (log w ++ evs))
      | None => (Crash out_of_bounds, logged w evs)
      end
  end.
Proof.
  intros H0 Hb Hk k evs.
  pose proof (ntohs_range (sub (msg w) HEADER_LENGTH 2)) as Hcs.
  fold (wire_ciphertext_size (msg w)) in Hcs.
  unfold get_cleartext, ciphertext, payload. rewrite Hk. fold k.
  erewrite bind_ok by apply assert_run.
  run_step ciphertext_size_run.
  run_step load_run.
  fold (wire_ciphertext (msg w)).
  unfold private_decrypt. erewrite bind_ok by apply emit_run.
  rewrite logged_logged. cbn [app].
  destruct (rsa_private_decrypt k buf_len (wire_ciphertext (msg w))
              RSA_PKCS1_OAEP_PADDING) as [m|]; [|reflexivity].
  unfold bind, store. cbn [out logged].
  destruct (blit (out w) 0 m); reflexivity.
Qed.

(** [_write_cleartext] step by step: each primitive either stops the whole
    call or hands its result to the next one. *)
Lemma _write_cleartext_run (w : world) (buf : ptr) (buf_len : Z) (m : list byte)
    (enc_key sig_key : pkey) (ty : message_type) :
  let ek := get_rsa_key enc_key in
  let sk := get_rsa_key sig_key in
  let e1 := EvPublicEncrypt ek m RSA_PKCS1_OAEP_PADDING in
  _write_cleartext buf buf_len m enc_key sig_key ty w =
  match rsa_public_encrypt ek (len (zeros (pkey_size enc_key))) m
          RSA_PKCS1_OAEP_PADDING (rng w) with
  | (None, r1) =>
      (Throw cryptographic_exception, mkWorld (msg w) (out w) r1 (log w ++ [e1]))
  | (Some ct, r1) =>
      let d := message_digest ct in
      let e2 := EvDigest ct in
      let e3 := EvPaddingAddPSS sk d in
      match pss_pad sk (len (zeros (rsa_size sk))) d r1 with
      | (None, r2) =>
          (Throw cryptographic_exception,
           mkWorld (msg w) (out w) r2 (log w ++ [e1; e2; e3]))
      | (Some em, r2) =>
          let padded := overwrite (zeros (rsa_size sk)) em in
          let e4 := EvPrivateEncrypt sk padded RSA_NO_PADDING in
          match rsa_private_encrypt sk (len (zeros (rsa_size sk))) padded
                  RSA_NO_PADDING with
          | None =>
              (Throw cryptographic_exception,
               mkWorld (msg w) (out w) r2 (log w ++ [e1; e2; e3; e4]))
          | Some sg =>
              _write buf buf_len ct sg ty
                (mkWorld (msg w) (out w) r2 (log w ++ [e1; e2; e3; e4]))
          end
      end
  end.
Proof.
  intros ek sk e1.
  unfold _write_cleartext, public_encrypt, padding_add_PKCS1_PSS, private_encrypt,
    digest_of. fold ek sk.
  unfold bind at 1. unfold bind at 1. cbn [emit msg out rng log]. fold e1.
  destruct (rsa_public_encrypt ek (len (zeros (pkey_size enc_key))) m
              RSA_PKCS1_OAEP_PADDING (rng w)) as [[ct|] r1]; [|reflexivity].
  rewrite resize_overwrite.
  unfold bind at 1. unfold bind at 1. cbn [emit ret msg out rng log].
  unfold bind at 1. unfold bind at 1. cbn [emit msg out rng log].
  rewrite <- !app_assoc. cbn [app].
  destruct (pss_pad sk (len (zeros (rsa_size sk))) (message_digest ct) r1)
    as [[em|] r2]; [|reflexivity].
  unfold bind at 1. unfold bind at 1. cbn [emit msg out rng log].
  rewrite <- !app_assoc. cbn [app].
  destruct (rsa_private_encrypt sk (len (zeros (rsa_size sk)))
              (overwrite (zeros (rsa_size sk)) em) RSA_NO_PADDING) as [sg|];
    [|reflexivity].
  cbn [ret]. rewrite resize_overwrite. reflexivity.
Qed.

End CryptoRuns.

(* ------------------------------------------------------------------ *)
(** ** The received buffer is only read *)

Create HintDb keeps discriminated.

Section KeepsMsg.

Context {CR : Crypto} {HD : Header}.

Lemma keeps_ret {A} (a : A) : keeps_msg (ret a).
Proof. intro w. reflexivity. Qed.

Lemma keeps_throw {A} (e : exn) : keeps_msg (@throw _ _ A e).
Proof. intro w. reflexivity. Qed.

Lemma keeps_abort {A} (c : crash) : keeps_msg (@abort _ _ A c).
Proof. intro w. reflexivity. Qed.

Lemma keeps_emit (e : event) : keeps_msg (emit e).
Proof. intro w. reflexivity. Qed.

Lemma keeps_assert (c : bool) : keeps_msg (assert c).
Proof. intro w. destruct c; reflexivity. Qed.

Lemma keeps_load (off n : Z) : keeps_msg (load off n).
Proof. intro w. unfold load. destruct (slice (msg w) off n); reflexivity. Qed.

Lemma keeps_store (p : ptr) (off : Z) (bs : list byte) : keeps_msg (store p off bs).
Proof.
  intro w. unfold store. destruct p; [reflexivity|].
  destruct (blit (out w) off bs); reflexivity.
Qed.

Lemma keeps_bind {A B} (m : M A) (f : A -> M B) :
  keeps_msg m -> (forall a, keeps_msg (f a)) -> keeps_msg (bind m f).
Proof.
  intros Hm Hf w. unfold bind. specialize (Hm w).
  destruct (m w) as [[a|e|c] w1]; cbn [snd] in *; [|assumption..].
  now rewrite Hf.
Qed.

Hint Resolve keeps_ret keeps_throw keeps_abort keeps_emit keeps_assert
  keeps_load keeps_store : keeps.

Lemma keeps_ciphertext_size : keeps_msg ciphertext_size.
Proof. unfold ciphertext_size. apply keeps_bind; auto with keeps. Qed.

Lemma keeps_ciphertext_signature_size : keeps_msg ciphertext_signature_size.
Proof.
  unfold ciphertext_signature_size.
  apply keeps_bind; [apply keeps_ciphertext_size|intro].
  apply keeps_bind; auto with keeps.
Qed.

Lemma keeps_ciphertext_signature : keeps_msg ciphertext_signature.
Proof.
  unfold ciphertext_signature.
  apply keeps_bind; [apply keeps_ciphertext_size|auto with keeps].
Qed.

Lemma keeps_public_decrypt k cap input p : keeps_msg (public_decrypt k cap input p).
Proof.
  unfold public_decrypt. apply keeps_bind; [auto with keeps|intro].
  destruct (rsa_public_decrypt k cap input p); auto with keeps.
Qed.

Lemma keeps_private_decrypt k buf cap input p :
  keeps_msg (private_decrypt k buf cap input p).
Proof.
  unfold private_decrypt. apply keeps_bind; [auto with keeps|intro].
  destruct (rsa_private_decrypt k cap input p); [|auto with keeps].
  apply keeps_bind; auto with keeps.
Qed.

Lemma keeps_verify_PKCS1_PSS k d em : keeps_msg (verify_PKCS1_PSS k d em).
Proof.
  unfold verify_PKCS1_PSS. apply keeps_bind; [auto with keeps|intro].
  destruct ((len em =? rsa_size k) && pss_verify k d em); auto with keeps.
Qed.

Lemma keeps_digest_of data : keeps_msg (digest_of data).
Proof. unfold digest_of. apply keeps_bind; auto with keeps. Qed.

Hint Resolve keeps_ciphertext_size keeps_ciphertext_signature_size
  keeps_ciphertext_signature keeps_public_decrypt keeps_private_decrypt
  keeps_verify_PKCS1_PSS keeps_digest_of : keeps.

Lemma keeps_check_signature (key : pkey) : keeps_msg (check_signature key).
Proof.
  unfold check_signature. cbv zeta.
  repeat first [solve [auto with keeps] | apply keeps_bind; [|intro]].
Qed.

Lemma keeps_get_cleartext (buf : ptr) (buf_len : Z) (key : pkey) :
  keeps_msg (get_cleartext buf buf_len key).
Proof.
  unfold get_cleartext.
  apply keeps_bind; [auto with keeps|intro].
  destruct buf; [auto with keeps|].
  repeat first [solve [auto with keeps] | apply keeps_bind; [|intro]].
Qed.

Lemma run_operations_msg (ops : list operation) (w : world) :
  msg (run_operations ops w) = msg w.
Proof.
  unfold run_operations. revert w.
  induction ops as [|o ops IH]; intro w; [reflexivity|].
  cbn [fold_left]. rewrite IH.
  destruct o; [apply keeps_check_signature | apply keeps_get_cleartext].
Qed.

Lemma invariant_of_msg (w : world) :
  message_valid (msg w) -> well_formed (msg w) -> invariant w.
Proof.
  intros (H0 & HL & Hb) Hwf. unfold well_formed, MIN_BODY_LENGTH in Hwf.
  pose proof (ntohs_range (sub (msg w) HEADER_LENGTH 2)) as Hcs.
  fold (wire_ciphertext_size (msg w)) in Hcs.
  pose proof (ntohs_range
                (sub (msg w) (HEADER_LENGTH + 2 + wire_ciphertext_size (msg w)) 2)) as Hss.
  fold (wire_signature_size (msg w)) in Hss.
  exists (wire_body_length (msg w)), (wire_ciphertext_size (msg w)),
    (wire_signature_size (msg w)).
  rewrite message_length_run, ciphertext_size_run, ciphertext_signature_size_run
    by lia.
  repeat split. exact Hwf.
Qed.

End KeepsMsg.

(* ------------------------------------------------------------------ *)
(** ** The format check *)

Section FormatClaims.

Context {CR : Crypto} {HD : Header}.

(** A normal return of [check_format] leaves a well-formed frame. *)
Lemma check_format_ok_well_formed (w : world) :
  message_valid (msg w) ->
  fst (check_format w) = Ok tt -> well_formed (msg w).
Proof.
  intros Hv. rewrite (check_format_run w Hv).
  destruct (_ <? MIN_BODY_LENGTH); [discriminate|].
  destruct (_ <? MIN_BODY_LENGTH + _); [discriminate|].
  destruct (Z.eqb_spec (wire_body_length (msg w))
              (MIN_BODY_LENGTH + wire_ciphertext_size (msg w)
               + wire_signature_size (msg w))) as [E|E]; [|discriminate].
  intros _. exact E.
Qed.

(** A well-formed frame passes [check_format]. *)
Lemma well_formed_check_format_ok (w : world) :
  message_valid (msg w) -> well_formed (msg w) -> fst (check_format w) = Ok tt.
Proof.
  intros Hv Hwf. rewrite (check_format_run w Hv).
  pose proof (ntohs_range (sub (msg w) HEADER_LENGTH 2)) as Hcs.
  fold (wire_ciphertext_size (msg w)) in Hcs.
  pose proof (ntohs_range
                (sub (msg w) (HEADER_LENGTH + 2 + wire_ciphertext_size (msg w)) 2))
    as Hss.
  fold (wire_signature_size (msg w)) in Hss.
  unfold well_formed in Hwf. unfold MIN_BODY_LENGTH in *.
  destruct (Z.ltb_spec (wire_body_length (msg w)) (2 * 2)); [lia|].
  destruct (Z.ltb_spec (wire_body_length (msg w))
              (2 * 2 + wire_ciphertext_size (msg w))); [lia|].
  destruct (Z.eqb_spec (wire_body_length (msg w))
              (2 * 2 + wire_ciphertext_size (msg w)
               + wire_signature_size (msg w))); [reflexivity|lia].
Qed.



(** C8 (progressive bounds checking).  [check_format] tests the minimum
    length first, then the length with the declared ciphertext, then the
    exact length.  When the first test fails no length field has been read;
    when the second fails the signature length has not been read; every
    read it makes ends inside the declared body, hence inside the received
    buffer, and the call never stops on an out-of-range access. *)
Theorem check_format_progressive (w : world) :
  message_valid (msg w) ->
  let L := wire_body_length (msg w) in
  let cs := wire_ciphertext_size (msg w) in
  let ss := wire_signature_size (msg w) in
  let bad := Throw (runtime_error "bad message length") in
  let read_cs := EvLoad HEADER_LENGTH 2 in
  let read_ss := EvLoad (HEADER_LENGTH + 2 + cs) 2 in
  exists r evs,
    check_format w = (r, logged w evs) /\
    (forall off n, In (EvLoad off n) evs ->
       0 <= off /\ 0 <= n /\ off + n <= HEADER_LENGTH + L /\
       HEADER_LENGTH + L <= len (msg w)) /\
    (L < MIN_BODY_LENGTH ->
       r = bad /\ ~ In read_cs evs /\ ~ In read_ss evs) /\
    (MIN_BODY_LENGTH <= L < MIN_BODY_LENGTH + cs ->
       r = bad /\ In read_cs evs /\ ~ In read_ss evs) /\
    (MIN_BODY_LENGTH + cs <= L ->
       In read_cs evs /\ In read_ss evs /\
       r = if L =? MIN_BODY_LENGTH + cs + ss then Ok tt else bad) /\
    (forall c, r <> Crash c).
Proof.
  intros Hv L cs ss bad read_cs read_ss.
  pose proof (check_format_run w Hv) as Hrun. cbv zeta in Hrun.
  fold L cs ss in Hrun.
  destruct Hv as (H0 & HL & Hb). fold L in HL, Hb.
  assert (Hcs : 0 <= cs <= 65535) by apply ntohs_range.
  assert (Hss : 0 <= ss <= 65535) by apply ntohs_range.
  unfold MIN_BODY_LENGTH in *.
  unfold read_cs, read_ss.
  revert Hrun. destruct (Z.ltb_spec L (2 * 2)) as [E1|E1]; intro Hrun.
  { eexists _, _. split; [exact Hrun|].
    split.
    { intros off n Hi. cbn [In] in Hi. destruct Hi as [Hi|[]].
      injection Hi as <- <-. lia. }
    split.
    { intros _. split; [reflexivity|].
      split; intros [E|[]]; injection E; lia. }
    split; [lia|]. split; [lia|]. intros c; discriminate. }
  revert Hrun. destruct (Z.ltb_spec L (2 * 2 + cs)) as [E2|E2]; intro Hrun.
  { eexists _, _. split; [exact Hrun|].
    split.
    { intros off n Hi. cbn [In] in Hi.
      repeat (destruct Hi as [Hi|Hi]; [injection Hi as <- <-; lia|]).
      destruct Hi. }
    split; [lia|].
    split.
    { intros _. split; [reflexivity|].
      split; [cbn [In]; tauto|].
      intros [E|[E|[E|[]]]]; injection E; lia. }
    split; [lia|]. intros c; discriminate. }
  assert (Hin : forall evs' off n,
             evs' = [EvLoad 0 HEADER_LENGTH; EvLoad 0 HEADER_LENGTH;
                     EvLoad HEADER_LENGTH 2; EvLoad 0 HEADER_LENGTH;
                     EvLoad HEADER_LENGTH 2; EvLoad HEADER_LENGTH 2;
                     EvLoad (HEADER_LENGTH + 2 + cs) 2] ->
             In (EvLoad off n) evs' ->
             0 <= off /\ 0 <= n /\ off + n <= HEADER_LENGTH + L /\
             HEADER_LENGTH + L <= len (msg w)).
  { intros evs' off n -> Hi. cbn [In] in Hi.
    repeat (destruct Hi as [Hi|Hi]; [injection Hi as <- <-; lia|]).
    destruct Hi. }
  revert Hrun. destruct (negb (L =? 2 * 2 + cs + ss)) eqn:E3; intro Hrun.
  - eexists _, _. split; [exact Hrun|].
    apply negb_true_iff in E3. rewrite E3.
    split; [intros off n; apply Hin; reflexivity|].
    split; [lia|]. split; [lia|]. split.
    + intros _. split; [|split; [|reflexivity]]; cbn [In]; tauto.
    + intros c; discriminate.
  - eexists _, _. split; [exact Hrun|].
    apply negb_false_iff in E3. rewrite E3.
    split; [intros off n; apply Hin; reflexivity|].
    split; [lia|]. split; [lia|]. split.
    + intros _. split; [|split; [|reflexivity]]; cbn [In]; tauto.
    + intros c; discriminate.
Qed.

(** C10 (well-formedness invariant).  When the constructor returns
    normally it has run the format check once, only reading the message,
    and the message satisfies
    [length() == MIN_BODY_LENGTH + ciphertext_size() + ciphertext_signature_size()];
    it still does after any sequence of [check_signature] and
    [get_cleartext] calls, with whatever arguments: these never write to
    the buffer the message views. *)
Theorem session_message_invariant (w w' : world) (ops : list operation) :
  message_valid (msg w) ->
  session_message w = (Ok tt, w') ->
  w' = snd (check_format w) /\
  msg w' = msg w /\ out w' = out w /\ rng w' = rng w /\
  invariant (run_operations ops w') /\
  well_formed (msg (run_operations ops w')) /\
  msg (run_operations ops w') = msg w.
Proof.
  intros Hv Hc. unfold session_message in Hc.
  assert (Hw : w' = logged w
                 [EvLoad 0 HEADER_LENGTH; EvLoad 0 HEADER_LENGTH;
                  EvLoad HEADER_LENGTH 2; EvLoad 0 HEADER_LENGTH;
                  EvLoad HEADER_LENGTH 2; EvLoad HEADER_LENGTH 2;
                  EvLoad (HEADER_LENGTH + 2 + wire_ciphertext_size (msg w)) 2]).
  { pose proof (check_format_run w Hv) as Hrun. cbv zeta in Hrun.
    rewrite Hc in Hrun.
    destruct (_ <? MIN_BODY_LENGTH); [discriminate|].
    destruct (_ <? MIN_BODY_LENGTH + _); [discriminate|].
    destruct (negb _); [discriminate|].
    injection Hrun as ->. reflexivity. }
  assert (Hm : msg w' = msg w) by (rewrite Hw; reflexivity).
  split; [now rewrite Hc|].
  split; [exact Hm|].
  split; [rewrite Hw; reflexivity|].
  split; [rewrite Hw; reflexivity|].
  assert (Hwf : well_formed (msg w)).
  { pose proof (check_format_ok_well_formed w Hv) as Hx.
    apply Hx. now rewrite Hc. }
  pose proof (run_operations_msg ops w') as Hk.
  assert (Hfinal : msg (run_operations ops w') = msg w) by congruence.
  split; [|split].
  - apply invariant_of_msg; rewrite Hfinal; assumption.
  - rewrite Hfinal. assumption.
  - assumption.
Qed.

End FormatClaims.

(* ------------------------------------------------------------------ *)
(** ** Verification and decryption *)

Section OpenClaims.

Context {CR : Crypto} {HD : Header}.

(** C7 (size query).  With a null buffer and a non-null key,
    [get_cleartext] returns the size of the key and changes nothing: no
    read of the message, no call into the crypto library, no write.  A
    private-key decryption that was not in the log before the call can only
    come from a call with a non-null buffer, and on a framed message such a
    call does decrypt the ciphertext field. *)
Theorem get_cleartext_size_query (w : world) (buf_len : Z) (key : pkey) :
  pkey_nonnull key = true ->
  get_cleartext nullptr buf_len key w = (Ok (rsa_size (get_rsa_key key)), w) /\
  (forall buf k input p,
     In (EvPrivateDecrypt k input p) (log (snd (get_cleartext buf buf_len key w))) ->
     ~ In (EvPrivateDecrypt k input p) (log w) ->
     buf = outptr) /\
  (0 <= HEADER_LENGTH ->
   HEADER_LENGTH + 2 + wire_ciphertext_size (msg w) <= len (msg w) ->
   log (snd (get_cleartext outptr buf_len key w)) =
   log w ++ [EvLoad HEADER_LENGTH 2;
             EvLoad (HEADER_LENGTH + 2) (wire_ciphertext_size (msg w));
             EvPrivateDecrypt (get_rsa_key key) (wire_ciphertext (msg w))
               RSA_PKCS1_OAEP_PADDING]).
Proof.
  intros Hk.
  assert (Hnull : get_cleartext nullptr buf_len key w =
                  (Ok (rsa_size (get_rsa_key key)), w)).
  { unfold get_cleartext. rewrite Hk. reflexivity. }
  split; [exact Hnull|]. split.
  - intros buf k input p Hin Hnot. destruct buf; [|reflexivity].
    rewrite Hnull in Hin. contradiction.
  - intros H0 Hb. rewrite (get_cleartext_run w buf_len key H0 Hb Hk).
    fold (get_cleartext_events (msg w) (get_rsa_key key)).
    destruct (rsa_private_decrypt _ _ _ _) as [m|]; [|reflexivity].
    destruct (blit (out w) 0 m); reflexivity.
Qed.

(** C5 (verification totality).  On a well-formed message and a non-null
    RSA key, [check_signature] either returns normally or throws the crypto
    library's exception; it never stops the program.  It returns normally
    only when the raw public-key transform of the signature succeeds, the
    recovered block has the size of the key's modulus and the PSS check of
    that block against the digest of the ciphertext passes; a recovered
    block of another size makes it throw. *)
Theorem check_signature_total (w : world) (key : pkey) :
  message_valid (msg w) -> well_formed (msg w) ->
  pkey_nonnull key = true -> rsa_nonnull (get_rsa_key key) = true ->
  let k := get_rsa_key key in
  let r := fst (check_signature key w) in
  let recovered :=
    rsa_public_decrypt k (len (zeros (rsa_size k))) (wire_signature (msg w))
      RSA_NO_PADDING in
  (r = Ok tt \/ r = Throw cryptographic_exception) /\
  (r = Ok tt <->
   exists blk, recovered = Some blk /\ len blk = rsa_size k /\
               pss_verify k (message_digest (wire_ciphertext (msg w))) blk = true) /\
  (forall blk, recovered = Some blk -> len blk <> rsa_size k ->
               r = Throw cryptographic_exception).
Proof.
  intros Hv Hwf Hk Hr k r recovered.
  unfold r. rewrite (check_signature_run w key Hv Hwf Hk Hr). fold k recovered.
  destruct recovered as [blk|].
  - cbn [fst].
    destruct (Z.eqb_spec (len blk) (rsa_size k)) as [El|El]; cbn [andb].
    + destruct (pss_verify k (message_digest (wire_ciphertext (msg w))) blk) eqn:Ev.
      * split; [now left|]. split.
        -- split; [intros _; exists blk; auto | reflexivity].
        -- intros b [= <-] Hne. contradiction.
      * split; [now right|]. split.
        -- split; [discriminate|].
           intros (b & [= <-] & _ & Hb). congruence.
        -- reflexivity.
    + split; [now right|]. split.
      * split; [discriminate|].
        intros (b & [= <-] & Hb & _). contradiction.
      * reflexivity.
  - cbn [fst]. split; [now right|]. split.
    + split; [discriminate|]. intros (b & Hb & _). discriminate.
    + reflexivity.
Qed.

(** C9 (zero-length boundary).  A frame that declares a ciphertext length
    of 0 or a signature length of 0 and whose length is otherwise exact
    passes [check_format].  With a zero-length ciphertext [get_cleartext]
    throws the crypto library's exception; with a zero-length signature
    [check_signature] does. *)
Theorem zero_length_fields_fail_in_crypto {EL : RsaEmptyLaws} (w : world) :
  message_valid (msg w) -> well_formed (msg w) ->
  wire_ciphertext_size (msg w) = 0 \/ wire_signature_size (msg w) = 0 ->
  fst (check_format w) = Ok tt /\
  (wire_ciphertext_size (msg w) = 0 ->
   forall buf_len key, pkey_nonnull key = true ->
     fst (get_cleartext outptr buf_len key w) = Throw cryptographic_exception) /\
  (wire_signature_size (msg w) = 0 ->
   forall key, pkey_nonnull key = true -> rsa_nonnull (get_rsa_key key) = true ->
     fst (check_signature key w) = Throw cryptographic_exception).
Proof.
  intros Hv Hwf _.
  pose proof (ntohs_range (sub (msg w) HEADER_LENGTH 2)) as Hcs.
  fold (wire_ciphertext_size (msg w)) in Hcs.
  pose proof (ntohs_range
                (sub (msg w) (HEADER_LENGTH + 2 + wire_ciphertext_size (msg w)) 2)) as Hss.
  fold (wire_signature_size (msg w)) in Hss.
  split; [|split].
  - now apply well_formed_check_format_ok.
  - intros Hz buf_len key Hk.
    destruct Hv as (H0 & HL & Hb). unfold well_formed, MIN_BODY_LENGTH in Hwf.
    rewrite get_cleartext_run by (try assumption; lia).
    assert (Ect : wire_ciphertext (msg w) = []).
    { apply len_zero_nil. unfold wire_ciphertext. rewrite Hz.
      unfold sub, len. reflexivity. }
    rewrite Ect, rsa_private_decrypt_empty. reflexivity.
  - intros Hz key Hk Hr.
    rewrite (check_signature_run w key Hv Hwf Hk Hr).
    assert (Esg : wire_signature (msg w) = []).
    { apply len_zero_nil. unfold wire_signature. rewrite Hz.
      unfold sub, len. reflexivity. }
    rewrite Esg.
    destruct (rsa_public_decrypt _ _ [] RSA_NO_PADDING) as [blk|] eqn:E;
      [|reflexivity].
    rewrite (rsa_public_decrypt_empty _ _ _ _ E), andb_false_r. reflexivity.
Qed.

End OpenClaims.

(* ------------------------------------------------------------------ *)
(** ** Construction *)

Lemma len_zeros (n : Z) : 0 <= n -> len (zeros n) = n.
Proof. intros. unfold len, zeros. rewrite repeat_length. lia. Qed.

Lemma blit_zero (l bs : list byte) :
  len bs <= len l -> blit l 0 bs = Some (bs ++ skipn (Z.to_nat (len bs)) l).
Proof.
  intros Hl. unfold blit. cbn [Z.add].
  replace ((0 <=? 0) && (len bs <=? len l)) with true; [reflexivity|].
  symmetry. rewrite andb_true_iff, !Z.leb_le. lia.
Qed.

Lemma sub_prefix (a b : list byte) : sub (a ++ b) 0 (len a) = a.
Proof. apply (sub_at [] a b); reflexivity. Qed.

Section Frames.

Context {HD : Header}.

(** The fields of a buffer that starts with a frame. *)
Lemma frame_fields (hdr ct sg rest : list byte) :
  len hdr = HEADER_LENGTH ->
  let f1 := htons (cast_uint16 (len ct)) in
  let f2 := htons (cast_uint16 (len sg)) in
  let b := hdr ++ f1 ++ ct ++ f2 ++ sg ++ rest in
  sub b 0 HEADER_LENGTH = hdr /\
  sub b HEADER_LENGTH 2 = f1 /\
  sub b (HEADER_LENGTH + 2) (len ct) = ct /\
  sub b (HEADER_LENGTH + 2 + len ct) 2 = f2 /\
  sub b (HEADER_LENGTH + 2 + len ct + 2) (len sg) = sg /\
  sub b 0 (HEADER_LENGTH + (MIN_BODY_LENGTH + len ct + len sg)) =
    hdr ++ f1 ++ ct ++ f2 ++ sg.
Proof.
  intros Hh f1 f2 b.
  assert (L1 : len f1 = 2) by reflexivity.
  assert (L2 : len f2 = 2) by reflexivity.
  repeat split.
  - rewrite <- Hh. apply sub_prefix.
  - apply sub_at; [now symmetry | reflexivity].
  - unfold b. rewrite (app_assoc hdr f1).
    apply sub_at; [rewrite len_app; lia | reflexivity].
  - unfold b. rewrite (app_assoc hdr f1), (app_assoc (hdr ++ f1) ct).
    apply sub_at; [rewrite !len_app; lia | reflexivity].
  - unfold b.
    rewrite (app_assoc hdr f1), (app_assoc (hdr ++ f1) ct),
      (app_assoc ((hdr ++ f1) ++ ct) f2).
    apply sub_at; [rewrite !len_app; lia | reflexivity].
  - replace b with ((hdr ++ f1 ++ ct ++ f2 ++ sg) ++ rest)
      by (unfold b; now rewrite <- !app_assoc).
    replace (HEADER_LENGTH + (MIN_BODY_LENGTH + len ct + len sg))
      with (len (hdr ++ f1 ++ ct ++ f2 ++ sg))
      by (rewrite !len_app; unfold MIN_BODY_LENGTH; lia).
    apply sub_prefix.
Qed.

End Frames.

Section WriteClaims.

Context {CR : Crypto} {HD : Header}.

(** C6 (capacity atomicity of framing).  With a buffer of [buf_len] bytes,
    [_write] throws [runtime_error("buf_len")] exactly when [buf_len] is
    smaller than header length + 4 + ciphertextLength + signatureLength,
    and then leaves the buffer (and everything else) as it was; otherwise it
    returns that size, and the header it stamps carries the body length
    4 + ciphertextLength + signatureLength. *)
Theorem write_capacity_atomic {HL : HeaderLaws} (w : world) (buf_len : Z)
    (ct sg : list byte) (ty : message_type) :
  buf_len <= len (out w) ->
  let need := HEADER_LENGTH + 4 + len ct + len sg in
  let body := 4 + len ct + len sg in
  (buf_len < need ->
   _write outptr buf_len ct sg ty w = (Throw (runtime_error "buf_len"), w)) /\
  (need <= buf_len ->
   exists w',
     _write outptr buf_len ct sg ty w = (Ok need, w') /\
     log w' = log w ++ [EvHeaderWrite CURRENT_PROTOCOL_VERSION ty body] /\
     sub (out w') 0 HEADER_LENGTH = header_bytes CURRENT_PROTOCOL_VERSION ty body) /\
  ((exists e, fst (_write outptr buf_len ct sg ty w) = Throw e) <-> buf_len < need).
Proof.
  intros Hc need body.
  assert (Hshort : buf_len < need ->
            _write outptr buf_len ct sg ty w = (Throw (runtime_error "buf_len"), w)).
  { intro Hs. apply _write_short. unfold need, MIN_BODY_LENGTH in *. lia. }
  assert (Hlong : need <= buf_len ->
            exists w',
              _write outptr buf_len ct sg ty w = (Ok need, w') /\
              log w' = log w ++ [EvHeaderWrite CURRENT_PROTOCOL_VERSION ty body] /\
              sub (out w') 0 HEADER_LENGTH =
                header_bytes CURRENT_PROTOCOL_VERSION ty body).
  { intro Hn.
    assert (Hn' : HEADER_LENGTH + (MIN_BODY_LENGTH + len ct + len sg) <= buf_len)
      by (unfold need, MIN_BODY_LENGTH in *; lia).
    pose proof (_write_run w buf_len ct sg ty Hn' Hc) as Hrun.
    replace (MIN_BODY_LENGTH + len ct + len sg) with body in Hrun
      by (unfold body, MIN_BODY_LENGTH; lia).
    replace (HEADER_LENGTH + body) with need in Hrun by (unfold need, body; lia).
    eexists. split; [exact Hrun|]. cbn [log out]. split; [reflexivity|].
    rewrite <- (header_bytes_len CURRENT_PROTOCOL_VERSION ty body) at 1.
    apply sub_prefix. }
  split; [exact Hshort|]. split; [exact Hlong|]. split.
  - intros [e He]. destruct (Z.lt_ge_cases buf_len need) as [Hlt|Hge]; [exact Hlt|].
    destruct (Hlong Hge) as (w' & Hrun & _). rewrite Hrun in He. discriminate.
  - intro Hs. exists (runtime_error "buf_len"). now rewrite Hshort.
Qed.

(** C3, as the code has it (16-bit length fields).  [_write] never rejects
    a ciphertext or a signature for its length: whenever the buffer has
    room it returns normally, and each 16-bit length field receives the
    length reduced modulo 65536, which is the length itself up to 65535. *)
Theorem write_length_fields_wrap {HL : HeaderLaws} (w : world) (buf_len : Z)
    (ct sg : list byte) (ty : message_type) :
  HEADER_LENGTH + 4 + len ct + len sg <= buf_len -> buf_len <= len (out w) ->
  exists w',
    _write outptr buf_len ct sg ty w =
      (Ok (HEADER_LENGTH + 4 + len ct + len sg), w') /\
    ntohs (sub (out w') HEADER_LENGTH 2) = len ct mod 65536 /\
    ntohs (sub (out w') (HEADER_LENGTH + 2 + len ct) 2) = len sg mod 65536 /\
    (len ct <= 65535 -> wire_ciphertext_size (out w') = len ct) /\
    (len ct <= 65535 -> len sg <= 65535 -> wire_signature_size (out w') = len sg).
Proof.
  intros Hn Hc.
  assert (Hn' : HEADER_LENGTH + (MIN_BODY_LENGTH + len ct + len sg) <= buf_len)
    by (unfold MIN_BODY_LENGTH; lia).
  pose proof (_write_run w buf_len ct sg ty Hn' Hc) as Hrun.
  replace (HEADER_LENGTH + (MIN_BODY_LENGTH + len ct + len sg))
    with (HEADER_LENGTH + 4 + len ct + len sg) in Hrun at 1
    by (unfold MIN_BODY_LENGTH; lia).
  eexists. split; [exact Hrun|]. cbn [out].
  destruct (frame_fields
              (header_bytes CURRENT_PROTOCOL_VERSION ty
                 (MIN_BODY_LENGTH + len ct + len sg))
              ct sg
              (skipn (Z.to_nat (HEADER_LENGTH + (MIN_BODY_LENGTH + len ct + len sg)))
                 (out w)))
    as (_ & F1 & _ & F2 & _); [apply header_bytes_len|].
  pose proof (len_nonneg ct). pose proof (len_nonneg sg).
  assert (E1 : ntohs (sub (header_bytes CURRENT_PROTOCOL_VERSION ty
                             (MIN_BODY_LENGTH + len ct + len sg) ++
                           htons (cast_uint16 (len ct)) ++ ct ++
                           htons (cast_uint16 (len sg)) ++ sg ++
                           skipn (Z.to_nat (HEADER_LENGTH +
                                            (MIN_BODY_LENGTH + len ct + len sg)))
                             (out w)) HEADER_LENGTH 2) = len ct mod 65536)
    by (rewrite F1; apply ntohs_htons_cast).
  split; [exact E1|]. split; [rewrite F2; apply ntohs_htons_cast|]. split.
  - intro Hs. unfold wire_ciphertext_size. rewrite E1. apply Z.mod_small. lia.
  - intros Hs1 Hs2. unfold wire_signature_size, wire_ciphertext_size.
    rewrite E1, Z.mod_small by lia.
    rewrite F2, ntohs_htons_cast. apply Z.mod_small. lia.
Qed.

End WriteClaims.

Section SealClaims.

Context {CR : Crypto} {HD : Header}.

(** C4 (seal algorithm order).  [_write_cleartext] returns normally exactly
    when these steps succeed one after the other, each on the output of the
    one before: OAEP encryption of the cleartext under the encryption key;
    the fixed digest of that ciphertext; PSS padding of the digest into a
    block of the signing key's size; the raw ([RSA_NO_PADDING]) private-key
    transform of the padded block; framing of the ciphertext and of the
    resulting signature by [_write].  The calls made are those five, in
    that order. *)
Theorem write_cleartext_steps (w w' : world) (buf : ptr) (buf_len n : Z)
    (m : list byte) (enc_key sig_key : pkey) (ty : message_type) :
  let ek := get_rsa_key enc_key in
  let sk := get_rsa_key sig_key in
  _write_cleartext buf buf_len m enc_key sig_key ty w = (Ok n, w') <->
  exists ct r1 em r2 sg,
    let d := message_digest ct in
    let padded := overwrite (zeros (rsa_size sk)) em in
    let calls := [EvPublicEncrypt ek m RSA_PKCS1_OAEP_PADDING;
                  EvDigest ct;
                  EvPaddingAddPSS sk d;
                  EvPrivateEncrypt sk padded RSA_NO_PADDING] in
    rsa_public_encrypt ek (len (zeros (pkey_size enc_key))) m
      RSA_PKCS1_OAEP_PADDING (rng w) = (Some ct, r1) /\
    pss_pad sk (len (zeros (rsa_size sk))) d r1 = (Some em, r2) /\
    rsa_private_encrypt sk (len (zeros (rsa_size sk))) padded RSA_NO_PADDING
      = Some sg /\
    _write buf buf_len ct sg ty (mkWorld (msg w) (out w) r2 (log w ++ calls))
      = (Ok n, w') /\
    log w' = log w ++ calls ++
             [EvHeaderWrite CURRENT_PROTOCOL_VERSION ty
                (MIN_BODY_LENGTH + len ct + len sg)].
Proof.
  intros ek sk. rewrite _write_cleartext_run. fold ek sk. split.
  - destruct (rsa_public_encrypt ek _ m _ (rng w)) as [[ct|] r1] eqn:He;
      [|discriminate].
    cbv zeta.
    destruct (pss_pad sk _ (message_digest ct) r1) as [[em|] r2] eqn:Hp;
      [|discriminate].
    destruct (rsa_private_encrypt sk _ _ _) as [sg|] eqn:Hs; [|discriminate].
    intro Hw. exists ct, r1, em, r2, sg. cbv zeta.
    repeat split; try reflexivity; try assumption.
    apply _write_ok_inv in Hw. destruct Hw as (_ & _ & _ & _ & _ & Hl).
    cbn [log] in Hl. rewrite Hl, <- app_assoc. reflexivity.
  - intros (ct & r1 & em & r2 & sg & He & Hp & Hs & Hw & _).
    cbv zeta in *. rewrite He, Hp, Hs. exact Hw.
Qed.

(** C1 (round trip).  Let the cleartext fit the OAEP capacity of a non-null
    encryption key, the signing key be able to sign, the output buffer have
    room for the frame, and the two key sizes and the body length fit their
    16-bit fields.  Then [_write_cleartext] returns the frame size, and a
    receiver that views the bytes written passes the constructor's format
    check and gets exactly the cleartext back from [get_cleartext] with the
    private counterpart of the encryption key and a buffer that holds it. *)
Theorem seal_open_round_trip {HL : HeaderLaws} {RL : RsaLaws}
    (w : world) (buf_len : Z) (m : list byte)
    (enc_key sig_key dec_key : pkey) (ty : message_type) :
  len m <= oaep_capacity (get_rsa_key enc_key) ->
  keypair enc_key dec_key ->
  rsa_nonnull (get_rsa_key enc_key) = true ->
  pkey_nonnull dec_key = true ->
  can_sign sig_key ->
  0 <= pkey_size enc_key <= 65535 ->
  0 <= rsa_size (get_rsa_key sig_key) <= 65535 ->
  4 + pkey_size enc_key + rsa_size (get_rsa_key sig_key) <= BODY_LENGTH_MAX ->
  HEADER_LENGTH + 4 + pkey_size enc_key + rsa_size (get_rsa_key sig_key)
    <= buf_len ->
  buf_len <= len (out w) ->
  exists n w1,
    _write_cleartext outptr buf_len m enc_key sig_key ty w = (Ok n, w1) /\
    forall (w2 : world) (cap : Z),
      msg w2 = sub (out w1) 0 n ->
      len m <= cap -> cap <= len (out w2) ->
      fst (session_message w2) = Ok tt /\
      exists w3,
        get_cleartext outptr cap dec_key w2 = (Ok (len m), w3) /\
        sub (out w3) 0 (len m) = m.
Proof.
  intros Hm Hkp Hek Hdk Hsign Hes Hss Hbody Hcap Hout.
  set (ek := get_rsa_key enc_key) in *. set (sk := get_rsa_key sig_key) in *.
  destruct (rsa_public_encrypt_ok ek (len (zeros (pkey_size enc_key))) m (rng w))
    as (ct & r1 & Henc); [assumption | | assumption |].
  { rewrite len_zeros by lia. rewrite pkey_size_rsa_size. fold ek. lia. }
  destruct (Hsign ct r1) as (em & r2 & sg & Hpad & Hsig). fold sk in Hpad, Hsig.
  pose proof (rsa_public_encrypt_len _ _ _ _ _ _ _ Henc) as Lct.
  pose proof (rsa_private_encrypt_len _ _ _ _ _ Hsig) as Lsg.
  rewrite len_zeros in Lct, Lsg by lia.
  pose proof (len_nonneg ct) as Pct. pose proof (len_nonneg sg) as Psg.
  pose proof HEADER_LENGTH_nonneg as H0.
  set (body := MIN_BODY_LENGTH + len ct + len sg).
  assert (Hb : body = 4 + len ct + len sg) by (unfold body, MIN_BODY_LENGTH; lia).
  set (calls := [EvPublicEncrypt ek m RSA_PKCS1_OAEP_PADDING; EvDigest ct;
                 EvPaddingAddPSS sk (message_digest ct);
                 EvPrivateEncrypt sk (overwrite (zeros (rsa_size sk)) em)
                   RSA_NO_PADDING]).
  set (hdr := header_bytes CURRENT_PROTOCOL_VERSION ty body).
  set (f1 := htons (cast_uint16 (len ct))).
  set (f2 := htons (cast_uint16 (len sg))).
  set (rest := skipn (Z.to_nat (HEADER_LENGTH + body)) (out w)).
  assert (Hseal : _write_cleartext outptr buf_len m enc_key sig_key ty w =
                  (Ok (HEADER_LENGTH + body),
                   mkWorld (msg w) (hdr ++ f1 ++ ct ++ f2 ++ sg ++ rest) r2
                     (log w ++ calls ++
                      [EvHeaderWrite CURRENT_PROTOCOL_VERSION ty body]))).
  { rewrite _write_cleartext_run. fold ek sk. rewrite Henc. cbv zeta.
    rewrite Hpad, Hsig. fold calls.
    rewrite _write_run by (cbn [out]; fold body; lia).
    cbn [msg out rng log]. fold body hdr f1 f2 rest.
    now rewrite <- app_assoc. }
  eexists _, _. split; [exact Hseal|].
  cbn [out]. intros w2 cap Hmsg Hcm Hco.
  assert (Hlh : len hdr = HEADER_LENGTH) by apply header_bytes_len.
  destruct (frame_fields hdr ct sg rest Hlh) as (_ & _ & _ & _ & _ & Fall).
  fold f1 f2 body in Fall. rewrite Fall in Hmsg.
  destruct (frame_fields hdr ct sg [] Hlh) as (G0 & G1 & G2 & G3 & G4 & _).
  fold f1 f2 in G0, G1, G2, G3, G4. rewrite app_nil_r in G0, G1, G2, G3, G4.
  rewrite <- Hmsg in G0, G1, G2, G3, G4.
  assert (Vcs : wire_ciphertext_size (msg w2) = len ct).
  { unfold wire_ciphertext_size. rewrite G1. unfold f1.
    rewrite ntohs_htons_cast. apply Z.mod_small. lia. }
  assert (Vss : wire_signature_size (msg w2) = len sg).
  { unfold wire_signature_size. rewrite Vcs, G3. unfold f2.
    rewrite ntohs_htons_cast. apply Z.mod_small. lia. }
  assert (Vl : wire_body_length (msg w2) = body).
  { unfold wire_body_length. rewrite G0. unfold hdr.
    apply header_body_length_bytes. lia. }
  assert (Vct : wire_ciphertext (msg w2) = ct).
  { unfold wire_ciphertext. rewrite Vcs. exact G2. }
  assert (Vlen : len (msg w2) = HEADER_LENGTH + body).
  { rewrite Hmsg, !len_app. unfold f1, f2. rewrite !len_htons. lia. }
  assert (Hvalid : message_valid (msg w2)).
  { unfold message_valid. rewrite Vl, Vlen. lia. }
  assert (Hwf : well_formed (msg w2)).
  { unfold well_formed. rewrite Vl, Vcs, Vss. reflexivity. }
  split.
  - unfold session_message. now apply well_formed_check_format_ok.
  - rewrite get_cleartext_run by (try assumption; rewrite Vcs, Vlen; lia).
    rewrite Vct.
    rewrite (rsa_private_decrypt_public_encrypt enc_key dec_key _ m (rng w) ct r1 cap
               Hkp Henc Hcm).
    rewrite blit_zero by lia.
    eexists. split; [reflexivity|]. cbn [out]. apply sub_prefix.
Qed.

End SealClaims.

(* ------------------------------------------------------------------ *)
(** ** Further properties of the codec *)

Lemma len_skipn (l : list byte) (n : Z) :
  0 <= n <= len l -> len (skipn (Z.to_nat n) l) = len l - n.
Proof. unfold len. intros. rewrite length_skipn. lia. Qed.

Lemma len_sub (b : list byte) (off n : Z) :
  0 <= off -> 0 <= n -> off + n <= len b -> len (sub b off n) = n.
Proof.
  unfold sub, len. intros. rewrite length_firstn, length_skipn. lia.
Qed.

Lemma sub_app_split (b : list byte) (off n1 n2 : Z) :
  0 <= off -> 0 <= n1 -> 0 <= n2 -> off + n1 + n2 <= len b ->
  sub b off (n1 + n2) = sub b off n1 ++ sub b (off + n1) n2.
Proof.
  intros Ho H1 H2 Hl.
  destruct (@split_at b off) as (p & r0 & E0 & L0); [lia|].
  assert (len r0 = len b - off) by (rewrite E0, len_app; lia).
  destruct (@split_at r0 n1) as (a & r1 & E1 & L1); [lia|].
  assert (len r1 = len r0 - n1) by (rewrite E1, len_app; lia).
  destruct (@split_at r1 n2) as (c & r2 & E2 & L2); [lia|].
  subst b r0 r1.
  rewrite (sub_at p a (c ++ r2) off n1) by lia.
  replace (p ++ a ++ c ++ r2) with ((p ++ a) ++ c ++ r2) at 2
    by now rewrite <- app_assoc.
  rewrite (sub_at (p ++ a) c r2) by (rewrite ?len_app; lia).
  replace (p ++ a ++ c ++ r2) with (p ++ (a ++ c) ++ r2)
    by now rewrite <- app_assoc.
  apply sub_at; rewrite ?len_app; lia.
Qed.

Lemma byte_of_Z_of_byte (b : byte) : byte_of_Z (Z_of_byte b) = b.
Proof.
  pose proof (Z_of_byte_range b) as Hr. unfold byte_of_Z.
  rewrite Z.mod_small by lia. unfold Z_of_byte.
  now rewrite N2Z.id, Byte.of_to_N.
Qed.

Lemma byte_of_Z_mod (z : Z) : byte_of_Z (z mod 256) = byte_of_Z z.
Proof. unfold byte_of_Z. now rewrite Z.mod_mod by lia. Qed.

Lemma htons_ntohs (f : list byte) : len f = 2 -> htons (ntohs f) = f.
Proof.
  destruct f as [|hi [|lo [|x r]]]; unfold len; cbn [List.length]; try lia.
  intros _. unfold htons, ntohs.
  pose proof (Z_of_byte_range hi) as Hh. pose proof (Z_of_byte_range lo) as Hl.
  replace ((Z_of_byte hi * 256 + Z_of_byte lo) / 256) with (Z_of_byte hi)
    by (apply Z.div_unique with (r := Z_of_byte lo); lia).
  rewrite <- (byte_of_Z_mod (Z_of_byte hi * 256 + Z_of_byte lo)).
  replace ((Z_of_byte hi * 256 + Z_of_byte lo) mod 256) with (Z_of_byte lo)
    by (apply Z.mod_unique with (q := Z_of_byte hi); lia).
  now rewrite !byte_of_Z_of_byte.
Qed.

Section CodecProperties.

Context {CR : Crypto} {HD : Header}.

(** What a receiver sees of a frame whose two lengths and body length fit
    their fields. *)
Lemma frame_received {HL : HeaderLaws} (ty : message_type) (ct sg rest b : list byte) :
  let body := MIN_BODY_LENGTH + len ct + len sg in
  len ct <= 65535 -> len sg <= 65535 -> body <= BODY_LENGTH_MAX ->
  b = sub (header_bytes CURRENT_PROTOCOL_VERSION ty body ++
           htons (cast_uint16 (len ct)) ++ ct ++
           htons (cast_uint16 (len sg)) ++ sg ++ rest) 0 (HEADER_LENGTH + body) ->
  len b = HEADER_LENGTH + body /\
  wire_body_length b = body /\
  wire_ciphertext_size b = len ct /\
  wire_signature_size b = len sg /\
  wire_ciphertext b = ct /\
  wire_signature b = sg /\
  message_valid b /\ well_formed b.
Proof.
  intros body Hct Hsg Hbody Hb.
  set (hdr := header_bytes CURRENT_PROTOCOL_VERSION ty body) in *.
  set (f1 := htons (cast_uint16 (len ct))) in *.
  set (f2 := htons (cast_uint16 (len sg))) in *.
  pose proof (len_nonneg ct) as Pct. pose proof (len_nonneg sg) as Psg.
  pose proof HEADER_LENGTH_nonneg as H0.
  assert (Hlh : len hdr = HEADER_LENGTH) by apply header_bytes_len.
  destruct (frame_fields hdr ct sg rest Hlh) as (_ & _ & _ & _ & _ & Fall).
  fold f1 f2 body in Fall. rewrite Fall in Hb.
  destruct (frame_fields hdr ct sg [] Hlh) as (G0 & G1 & G2 & G3 & G4 & _).
  fold f1 f2 in G0, G1, G2, G3, G4. rewrite app_nil_r in G0, G1, G2, G3, G4.
  rewrite <- Hb in G0, G1, G2, G3, G4.
  assert (Vlen : len b = HEADER_LENGTH + body).
  { rewrite Hb, !len_app. unfold f1, f2. rewrite !len_htons.
    unfold body, MIN_BODY_LENGTH. lia. }
  assert (Vl : wire_body_length b = body).
  { unfold wire_body_length. rewrite G0. unfold hdr.
    apply header_body_length_bytes. unfold body, MIN_BODY_LENGTH in *. lia. }
  assert (Vcs : wire_ciphertext_size b = len ct).
  { unfold wire_ciphertext_size. rewrite G1. unfold f1.
    rewrite ntohs_htons_cast. apply Z.mod_small. lia. }
  assert (Vss : wire_signature_size b = len sg).
  { unfold wire_signature_size. rewrite Vcs, G3. unfold f2.
    rewrite ntohs_htons_cast. apply Z.mod_small. lia. }
  repeat split; try assumption.
  - unfold wire_ciphertext. now rewrite Vcs.
  - unfold wire_signature. now rewrite Vcs, Vss.
  - rewrite Vl. unfold body, MIN_BODY_LENGTH. lia.
  - rewrite Vl, Vlen. lia.
  - unfold well_formed. now rewrite Vl, Vcs, Vss.
Qed.

(** X1 (wire layout).  With room in the buffer, [_write] returns the frame
    size and leaves in the buffer exactly: the header for (current version,
    type, 4 + ciphertext length + signature length), the 16-bit ciphertext
    length, the ciphertext, the 16-bit signature length, the signature, and
    behind them the bytes that were there before.  The buffer keeps its
    size; the received buffer and the random generator are not touched. *)
Theorem write_frame_layout {HL : HeaderLaws} (w : world) (buf_len : Z)
    (ct sg : list byte) (ty : message_type) :
  let n := HEADER_LENGTH + 4 + len ct + len sg in
  n <= buf_len -> buf_len <= len (out w) ->
  exists w',
    _write outptr buf_len ct sg ty w = (Ok n, w') /\
    out w' =
      header_bytes CURRENT_PROTOCOL_VERSION ty (4 + len ct + len sg) ++
      htons (cast_uint16 (len ct)) ++ ct ++
      htons (cast_uint16 (len sg)) ++ sg ++
      skipn (Z.to_nat n) (out w) /\
    len (out w') = len (out w) /\
    msg w' = msg w /\ rng w' = rng w.
Proof.
  intros n Hn Hc.
  assert (Hn' : HEADER_LENGTH + (MIN_BODY_LENGTH + len ct + len sg) <= buf_len)
    by (unfold n, MIN_BODY_LENGTH in *; lia).
  pose proof (_write_run w buf_len ct sg ty Hn' Hc) as Hrun. cbv zeta in Hrun.
  replace (MIN_BODY_LENGTH + len ct + len sg) with (4 + len ct + len sg) in Hrun
    by (unfold MIN_BODY_LENGTH; lia).
  replace (HEADER_LENGTH + (4 + len ct + len sg)) with n in Hrun
    by (unfold n; lia).
  eexists. split; [exact Hrun|]. cbn [out msg rng].
  split; [reflexivity|]. split; [|split; reflexivity].
  pose proof (len_nonneg ct). pose proof (len_nonneg sg).
  pose proof HEADER_LENGTH_nonneg.
  rewrite !len_app, header_bytes_len, !len_htons, len_skipn by (unfold n; lia).
  unfold n. lia.
Qed.

(** X2 (write, then parse).  When the ciphertext and the signature are at
    most 65535 bytes long and the body length fits the header field, a
    receiver that views the bytes [_write] produced passes the
    constructor's format check, and its accessors give back the body
    length, both sizes, the ciphertext and the signature that were
    written. *)
Theorem write_then_parse {HL : HeaderLaws} (w : world) (buf_len : Z)
    (ct sg : list byte) (ty : message_type) :
  len ct <= 65535 -> len sg <= 65535 ->
  4 + len ct + len sg <= BODY_LENGTH_MAX ->
  HEADER_LENGTH + 4 + len ct + len sg <= buf_len -> buf_len <= len (out w) ->
  exists n w',
    _write outptr buf_len ct sg ty w = (Ok n, w') /\
    forall w2 : world,
      msg w2 = sub (out w') 0 n ->
      fst (session_message w2) = Ok tt /\
      fst (message_length w2) = Ok (4 + len ct + len sg) /\
      fst (ciphertext_size w2) = Ok (len ct) /\
      fst (load ciphertext (len ct) w2) = Ok ct /\
      fst (ciphertext_signature_size w2) = Ok (len sg) /\
      fst (bind ciphertext_signature (fun p => load p (len sg)) w2) = Ok sg.
Proof.
  intros Hct Hsg Hbody Hn Hc.
  assert (Hn' : HEADER_LENGTH + (MIN_BODY_LENGTH + len ct + len sg) <= buf_len)
    by (unfold MIN_BODY_LENGTH; lia).
  pose proof (_write_run w buf_len ct sg ty Hn' Hc) as Hrun. cbv zeta in Hrun.
  eexists _, _. split; [exact Hrun|]. cbn [out]. intros w2 Hmsg.
  destruct (frame_received ty ct sg
              (skipn (Z.to_nat (HEADER_LENGTH + (MIN_BODY_LENGTH + len ct + len sg)))
                 (out w))
              (msg w2)) as
    (Vlen & Vl & Vcs & Vss & Vct & Vsg & Hv & Hwf);
    [assumption | assumption | unfold MIN_BODY_LENGTH; lia | exact Hmsg |].
  pose proof (len_nonneg ct) as Pct. pose proof (len_nonneg sg) as Psg.
  pose proof HEADER_LENGTH_nonneg as H0.
  unfold MIN_BODY_LENGTH in *.
  split; [unfold session_message; now apply well_formed_check_format_ok|].
  split; [rewrite message_length_run by lia; cbn [fst]; rewrite Vl; f_equal; lia|].
  split; [rewrite ciphertext_size_run by lia; cbn [fst]; now rewrite Vcs|].
  split.
  { unfold ciphertext, payload. rewrite load_run by lia. cbn [fst].
    f_equal. unfold wire_ciphertext in Vct. now rewrite Vcs in Vct. }
  split.
  { rewrite ciphertext_signature_size_run by (rewrite ?Vcs; lia).
    cbn [fst]. now rewrite Vss. }
  erewrite bind_ok by (apply ciphertext_signature_run; lia).
  rewrite load_run by (cbn [msg logged]; rewrite ?Vcs; lia).
  cbn [fst msg logged]. f_equal.
  unfold wire_signature in Vsg. rewrite Vss in Vsg. exact Vsg.
Qed.

(** X3 (parse, then write).  Writing the ciphertext and the signature of a
    message that passed the format check produces a frame of the same size
    whose body is, byte for byte, the body of that message. *)
Theorem parse_then_write {HL : HeaderLaws} (w : world) (buf_len : Z)
    (ty : message_type) :
  message_valid (msg w) ->
  fst (check_format w) = Ok tt ->
  let L := wire_body_length (msg w) in
  HEADER_LENGTH + L <= buf_len -> buf_len <= len (out w) ->
  exists w',
    _write outptr buf_len (wire_ciphertext (msg w)) (wire_signature (msg w)) ty w
      = (Ok (HEADER_LENGTH + L), w') /\
    sub (out w') HEADER_LENGTH L = sub (msg w) HEADER_LENGTH L.
Proof.
  intros Hv Hok L Hn Hc.
  pose proof (check_format_ok_well_formed w Hv Hok) as Hwf.
  destruct Hv as (H0 & HL0 & Hb). fold L in HL0, Hb.
  unfold well_formed, MIN_BODY_LENGTH in Hwf. fold L in Hwf.
  set (b := msg w) in *.
  set (cs := wire_ciphertext_size b) in *. set (ss := wire_signature_size b) in *.
  assert (Hcs : 0 <= cs <= 65535) by apply ntohs_range.
  assert (Hss : 0 <= ss <= 65535) by apply ntohs_range.
  set (ct := wire_ciphertext b). set (sg := wire_signature b).
  assert (Lct : len ct = cs) by (apply len_sub; lia).
  assert (Lsg : len sg = ss) by (apply len_sub; lia).
  assert (Hn' : HEADER_LENGTH + (MIN_BODY_LENGTH + len ct + len sg) <= buf_len)
    by (unfold MIN_BODY_LENGTH; lia).
  pose proof (_write_run w buf_len ct sg ty Hn' Hc) as Hrun. cbv zeta in Hrun.
  replace (HEADER_LENGTH + (MIN_BODY_LENGTH + len ct + len sg))
    with (HEADER_LENGTH + L) in Hrun at 1 by (unfold MIN_BODY_LENGTH; lia).
  eexists. split; [exact Hrun|]. cbn [out].
  set (hdr := header_bytes CURRENT_PROTOCOL_VERSION ty
                (MIN_BODY_LENGTH + len ct + len sg)).
  set (rest := skipn _ (out w)).
  assert (Hlh : len hdr = HEADER_LENGTH) by apply header_bytes_len.
  (* the body of the frame written *)
  replace (hdr ++ htons (cast_uint16 (len ct)) ++ ct ++
           htons (cast_uint16 (len sg)) ++ sg ++ rest)
    with (hdr ++ (htons (cast_uint16 (len ct)) ++ ct ++
                  htons (cast_uint16 (len sg)) ++ sg) ++ rest)
    by now rewrite <- !app_assoc.
  rewrite sub_at by (rewrite ?len_app, ?len_htons; lia).
  (* the body of the message received *)
  replace L with (2 + (cs + (2 + ss))) by lia.
  rewrite (sub_app_split b HEADER_LENGTH 2 (cs + (2 + ss))) by lia.
  rewrite (sub_app_split b (HEADER_LENGTH + 2) cs (2 + ss)) by lia.
  rewrite (sub_app_split b (HEADER_LENGTH + 2 + cs) 2 ss) by lia.
  fold (wire_ciphertext b) (wire_signature b). fold ct sg.
  unfold cast_uint16. rewrite Lct, Lsg, !Z.mod_small by lia.
  unfold cs at 1. unfold wire_ciphertext_size.
  rewrite htons_ntohs by (apply len_sub; lia).
  unfold ss at 1. unfold wire_signature_size. fold cs.
  rewrite htons_ntohs by (apply len_sub; lia).
  reflexivity.
Qed.

(** X12 (bytes behind the declared body are not examined).  The outcome of
    [check_format] is decided by the header and the declared body alone:
    appending any bytes to the received buffer, with the header left as it
    is, changes nothing to it.  The check is on the length the header
    declares, not on the size of the buffer. *)
Theorem check_format_ignores_trailing_bytes (w : world) (extra : list byte) :
  message_valid (msg w) ->
  fst (check_format (mkWorld (msg w ++ extra) (out w) (rng w) (log w))) =
  fst (check_format w).
Proof.
  intros Hv.
  set (w2 := mkWorld (msg w ++ extra) (out w) (rng w) (log w)).
  pose proof Hv as (H0 & HL0 & Hb).
  pose proof (len_nonneg extra) as Pe.
  assert (EL : wire_body_length (msg w2) = wire_body_length (msg w)).
  { unfold wire_body_length. cbn [msg w2].
    pose proof (len_nonneg (msg w)).
    now rewrite sub_app_l by lia. }
  assert (Hv2 : message_valid (msg w2)).
  { unfold message_valid. rewrite EL. cbn [msg w2]. rewrite len_app. lia. }
  rewrite (check_format_run w2 Hv2), (check_format_run w Hv). cbv zeta.
  rewrite EL. unfold MIN_BODY_LENGTH.
  destruct (Z.ltb_spec (wire_body_length (msg w)) (2 * 2)) as [E1|E1];
    [reflexivity|].
  assert (Ecs : wire_ciphertext_size (msg w2) = wire_ciphertext_size (msg w)).
  { unfold wire_ciphertext_size. cbn [msg w2]. now rewrite sub_app_l by lia. }
  rewrite Ecs.
  assert (Hcs : 0 <= wire_ciphertext_size (msg w) <= 65535) by apply ntohs_range.
  destruct (Z.ltb_spec (wire_body_length (msg w))
              (2 * 2 + wire_ciphertext_size (msg w))) as [E2|E2]; [reflexivity|].
  assert (Ess : wire_signature_size (msg w2) = wire_signature_size (msg w)).
  { unfold wire_signature_size. rewrite Ecs. cbn [msg w2].
    now rewrite sub_app_l by lia. }
  rewrite Ess.
  destruct (negb _); reflexivity.
Qed.

End CodecProperties.

(* ------------------------------------------------------------------ *)
(** ** Further properties of the crypto envelope *)

Lemma overwrite_full (dst src : list byte) :
  len src = len dst -> overwrite dst src = src.
Proof.
  unfold overwrite, len. intros Hl.
  rewrite skipn_all2 by lia. apply app_nil_r.
Qed.

Section EnvelopeProperties.

Context {CR : Crypto} {HD : Header}.

Lemma logged_empty (w : world) : logged w [] = w.
Proof. destruct w. unfold logged. cbn. now rewrite app_nil_r. Qed.

(** [_write] throws only from its capacity check, before any write. *)
Lemma _write_throw_inv (w w' : world) (buf : ptr) (buf_len : Z) (ct sg : list byte)
    (ty : message_type) (e : exn) :
  _write buf buf_len ct sg ty w = (Throw e, w') ->
  e = runtime_error "buf_len" /\ w' = w /\
  buf_len < HEADER_LENGTH + (MIN_BODY_LENGTH + len ct + len sg).
Proof.
  unfold _write.
  destruct (Z.ltb_spec buf_len (HEADER_LENGTH + (MIN_BODY_LENGTH + len ct + len sg)))
    as [Hlt|Hge].
  - intros [= <- <-]. auto.
  - intro E. exfalso. destruct buf; [discriminate|].
    unfold bind, store, message_write, bind, emit, store, ret in E.
    cbn [out msg rng log] in E.
    repeat match type of E with
           | context [match blit ?l ?o ?b with _ => _ end] =>
               destruct (blit l o b); [|discriminate]
           end.
    discriminate.
Qed.

(** X4 (a failed seal writes nothing).  When [_write_cleartext] throws,
    the output buffer and the received buffer are as before the call and no
    header was stamped.  The exception is the crypto library's, or
    [runtime_error("buf_len")]; the latter is raised only after the
    encryption, the digest, the padding and the signature were all
    computed, when the frame they need does not fit [buf_len]. *)
Theorem write_cleartext_failure_atomic (w w' : world) (buf : ptr) (buf_len : Z)
    (m : list byte) (enc_key sig_key : pkey) (ty : message_type) (e : exn) :
  _write_cleartext buf buf_len m enc_key sig_key ty w = (Throw e, w') ->
  out w' = out w /\ msg w' = msg w /\
  (exists calls, log w' = log w ++ calls /\
                 forall v t n, ~ In (EvHeaderWrite v t n) calls) /\
  (e = cryptographic_exception \/ e = runtime_error "buf_len") /\
  (e = runtime_error "buf_len" ->
   let ek := get_rsa_key enc_key in
   let sk := get_rsa_key sig_key in
   exists ct r1 em r2 sg,
     rsa_public_encrypt ek (len (zeros (pkey_size enc_key))) m
       RSA_PKCS1_OAEP_PADDING (rng w) = (Some ct, r1) /\
     pss_pad sk (len (zeros (rsa_size sk))) (message_digest ct) r1 = (Some em, r2) /\
     rsa_private_encrypt sk (len (zeros (rsa_size sk)))
       (overwrite (zeros (rsa_size sk)) em) RSA_NO_PADDING = Some sg /\
     buf_len < HEADER_LENGTH + 4 + len ct + len sg /\
     rng w' = r2).
Proof.
  rewrite _write_cleartext_run. cbv zeta.
  set (ek := get_rsa_key enc_key). set (sk := get_rsa_key sig_key).
  assert (Hno : forall (calls : list event),
             Forall (fun c => forall v t n, c <> EvHeaderWrite v t n) calls ->
             forall v t n, ~ In (EvHeaderWrite v t n) calls).
  { intros calls Hf v t n Hin. rewrite Forall_forall in Hf.
    apply (Hf _ Hin v t n). reflexivity. }
  destruct (rsa_public_encrypt ek _ m _ (rng w)) as [[ct|] r1] eqn:He.
  2:{ intros [= <- <-]. cbn [out msg log].
      repeat split; auto; [|intro; discriminate].
      eexists. split; [reflexivity|]. apply Hno.
      repeat constructor; intros; discriminate. }
  destruct (pss_pad sk _ (message_digest ct) r1) as [[em|] r2] eqn:Hp.
  2:{ intros [= <- <-]. cbn [out msg log].
      repeat split; auto; [|intro; discriminate].
      eexists. split; [reflexivity|]. apply Hno.
      repeat constructor; intros; discriminate. }
  destruct (rsa_private_encrypt sk _ _ _) as [sg|] eqn:Hs.
  2:{ intros [= <- <-]. cbn [out msg log].
      repeat split; auto; [|intro; discriminate].
      eexists. split; [reflexivity|]. apply Hno.
      repeat constructor; intros; discriminate. }
  intro Hw. apply _write_throw_inv in Hw. destruct Hw as (-> & -> & Hlt).
  cbn [out msg log rng].
  repeat split; auto.
  - eexists. split; [reflexivity|]. apply Hno.
    repeat constructor; intros; discriminate.
  - intros _. exists ct, r1, em, r2, sg.
    unfold MIN_BODY_LENGTH in Hlt.
    repeat split; try reflexivity; try assumption. lia.
Qed.

(** X5 (what the signature covers).  On well-formed messages the outcome
    of [check_signature] is a function of the key, the ciphertext field and
    the signature field alone: two messages that agree on these two fields
    get the same verdict, whatever their headers (version, type) say. *)
Theorem check_signature_fields_only (w1 w2 : world) (key : pkey) :
  message_valid (msg w1) -> well_formed (msg w1) ->
  message_valid (msg w2) -> well_formed (msg w2) ->
  wire_ciphertext (msg w1) = wire_ciphertext (msg w2) ->
  wire_signature (msg w1) = wire_signature (msg w2) ->
  fst (check_signature key w1) = fst (check_signature key w2).
Proof.
  intros Hv1 Hw1 Hv2 Hw2 Ec Es.
  destruct (pkey_nonnull key) eqn:Hk.
  2:{ unfold check_signature. rewrite Hk. reflexivity. }
  destruct (rsa_nonnull (get_rsa_key key)) eqn:Hr.
  2:{ unfold check_signature. rewrite Hk, Hr. reflexivity. }
  rewrite (check_signature_run w1 key Hv1 Hw1 Hk Hr).
  rewrite (check_signature_run w2 key Hv2 Hw2 Hk Hr).
  rewrite Ec, Es.
  destruct (rsa_public_decrypt _ _ _ _); reflexivity.
Qed.

(** X6 (decryption does not look at the signature).  The value
    [get_cleartext] returns and the bytes it leaves in the output buffer
    depend on the key, the buffer and the ciphertext field alone; the
    signature field need not even be there. *)
Theorem get_cleartext_ciphertext_only (w1 w2 : world) (buf : ptr) (buf_len : Z)
    (key : pkey) :
  0 <= HEADER_LENGTH ->
  HEADER_LENGTH + 2 + wire_ciphertext_size (msg w1) <= len (msg w1) ->
  HEADER_LENGTH + 2 + wire_ciphertext_size (msg w2) <= len (msg w2) ->
  wire_ciphertext (msg w1) = wire_ciphertext (msg w2) ->
  out w1 = out w2 ->
  fst (get_cleartext buf buf_len key w1) = fst (get_cleartext buf buf_len key w2) /\
  out (snd (get_cleartext buf buf_len key w1)) =
  out (snd (get_cleartext buf buf_len key w2)).
Proof.
  intros H0 Hb1 Hb2 Ec Eo.
  destruct (pkey_nonnull key) eqn:Hk.
  2:{ unfold get_cleartext. rewrite Hk. split; [reflexivity | exact Eo]. }
  destruct buf.
  { unfold get_cleartext. rewrite Hk. split; [reflexivity | exact Eo]. }
  rewrite (get_cleartext_run w1 buf_len key H0 Hb1 Hk).
  rewrite (get_cleartext_run w2 buf_len key H0 Hb2 Hk).
  rewrite Ec, Eo.
  destruct (rsa_private_decrypt _ _ _ _) as [m|]; [|split; [reflexivity|exact Eo]].
  destruct (blit (out w2) 0 m); split; try reflexivity. exact Eo.
Qed.

(* Composition rules for [logs_only]. *)

Lemma logs_ret {A} (a : A) : logs_only (ret a).
Proof. intro w. exists []. cbn. now rewrite logged_empty. Qed.

Lemma logs_throw {A} (e : exn) : logs_only (@throw _ _ A e).
Proof. intro w. exists []. cbn. now rewrite logged_empty. Qed.

Lemma logs_abort {A} (c : crash) : logs_only (@abort _ _ A c).
Proof. intro w. exists []. cbn. now rewrite logged_empty. Qed.

Lemma logs_emit (e : event) : logs_only (emit e).
Proof. intro w. exists [e]. reflexivity. Qed.

Lemma logs_assert (c : bool) : logs_only (assert c).
Proof. destruct c; [apply logs_ret | apply logs_abort]. Qed.

Lemma logs_load (off n : Z) : logs_only (load off n).
Proof.
  intro w. unfold load. destruct (slice (msg w) off n).
  - eexists. reflexivity.
  - exists []. cbn. now rewrite logged_empty.
Qed.

Lemma logs_bind {A B} (m : M A) (f : A -> M B) :
  logs_only m -> (forall a, logs_only (f a)) -> logs_only (bind m f).
Proof.
  intros Hm Hf w. unfold bind. destruct (Hm w) as (e1 & E1).
  destruct (m w) as [[a|e|c] w1]; cbn [snd] in *; subst w1.
  - destruct (Hf a (logged w e1)) as (e2 & E2).
    exists (e1 ++ e2). now rewrite E2, logged_logged.
  - now exists e1.
  - now exists e1.
Qed.

Lemma logs_if {A} (c : bool) (m1 m2 : M A) :
  logs_only m1 -> logs_only m2 -> logs_only (if c then m1 else m2).
Proof. now destruct c. Qed.

Ltac logs_steps :=
  repeat first
    [ apply logs_ret | apply logs_throw | apply logs_abort | apply logs_emit
    | apply logs_assert | apply logs_load | apply logs_if
    | apply logs_bind; [|intro] ].

Lemma logs_check_format : logs_only check_format.
Proof.
  unfold check_format, message_length, ciphertext_signature_size, ciphertext_size.
  logs_steps.
Qed.

Lemma logs_check_signature (key : pkey) : logs_only (check_signature key).
Proof.
  unfold check_signature, ciphertext_signature, ciphertext_signature_size,
    ciphertext_size, digest_of, public_decrypt, verify_PKCS1_PSS.
  cbv zeta. logs_steps.
  destruct (rsa_public_decrypt _ _ _ _); logs_steps.
Qed.

(** X7 (verification only reads).  Whatever the message (well-formed or
    not) and whatever the key (null or not), [check_format] and
    [check_signature] draw nothing from the random generator and write to
    neither buffer: they leave the world as it was, up to the log. *)
Theorem verification_logs_only (key : pkey) (w : world) :
  (exists evs, snd (check_format w) = logged w evs) /\
  (exists evs, snd (check_signature key w) = logged w evs).
Proof.
  split; [apply logs_check_format | apply logs_check_signature].
Qed.

(** X9 (a sealed message verifies).  Let [_write_cleartext] return
    normally, with key sizes and body length that fit their 16-bit fields.
    A receiver that views the bytes written and calls [check_signature]
    with the public counterpart of the signing key gets a normal return:
    the digest is recomputed over the very ciphertext that was signed, and
    the signature read back is the one that was written. *)
Theorem sealed_message_verifies
    {HL : HeaderLaws} {RL : RsaLaws} {SL : RsaSignLaws}
    (w w1 : world) (buf_len n : Z) (m : list byte)
    (enc_key sig_key ver_key : pkey) (ty : message_type) :
  keypair ver_key sig_key ->
  pkey_nonnull ver_key = true -> rsa_nonnull (get_rsa_key ver_key) = true ->
  0 <= pkey_size enc_key <= 65535 ->
  0 <= rsa_size (get_rsa_key sig_key) <= 65535 ->
  4 + pkey_size enc_key + rsa_size (get_rsa_key sig_key) <= BODY_LENGTH_MAX ->
  buf_len <= len (out w) ->
  _write_cleartext outptr buf_len m enc_key sig_key ty w = (Ok n, w1) ->
  forall w2 : world,
    msg w2 = sub (out w1) 0 n ->
    fst (session_message w2) = Ok tt /\
    fst (check_signature ver_key w2) = Ok tt.
Proof.
  intros Hkp Hvk Hvr Hes Hss Hbody Hout Hseal w2 Hmsg.
  set (ek := get_rsa_key enc_key) in *. set (sk := get_rsa_key sig_key) in *.
  set (vk := get_rsa_key ver_key) in *.
  rewrite _write_cleartext_run in Hseal. cbv zeta in Hseal. fold ek sk in Hseal.
  destruct (rsa_public_encrypt ek _ m _ (rng w)) as [[ct|] r1] eqn:Henc;
    [|discriminate].
  destruct (pss_pad sk _ (message_digest ct) r1) as [[em|] r2] eqn:Hpad;
    [|discriminate].
  destruct (rsa_private_encrypt sk _ _ _) as [sg|] eqn:Hsig; [|discriminate].
  pose proof (rsa_public_encrypt_len _ _ _ _ _ _ _ Henc) as Lct.
  pose proof (rsa_private_encrypt_len _ _ _ _ _ Hsig) as Lsg.
  rewrite len_zeros in Lct, Lsg, Hpad, Hsig by lia.
  pose proof (len_nonneg ct) as Pct. pose proof (len_nonneg sg) as Psg.
  destruct (pss_verify_pss_pad ver_key sig_key _ _ _ _ Hkp Hpad) as (Lem & Hver).
  fold sk in Lem. fold vk in Hver.
  rewrite overwrite_full in Hsig by (rewrite len_zeros by lia; exact Lem).
  pose proof (keypair_rsa_size _ _ Hkp) as Hsz. fold vk sk in Hsz.
  assert (Hcap : HEADER_LENGTH + (MIN_BODY_LENGTH + len ct + len sg) <= buf_len).
  { apply _write_ok_inv in Hseal. tauto. }
  rewrite _write_run in Hseal by (cbn [out]; assumption).
  injection Hseal as <- <-. cbn [out] in Hmsg.
  destruct (frame_received ty ct sg
              (skipn (Z.to_nat (HEADER_LENGTH + (MIN_BODY_LENGTH + len ct + len sg)))
                 (out w))
              (msg w2)) as
    (Vlen & Vl & Vcs & Vss & Vct & Vsg & Hv & Hwf);
    [lia | lia | unfold MIN_BODY_LENGTH; lia | exact Hmsg |].
  split; [unfold session_message; now apply well_formed_check_format_ok|].
  rewrite (check_signature_run w2 ver_key Hv Hwf Hvk Hvr). fold vk.
  rewrite Vsg, Vct, len_zeros by lia.
  assert (Hdec : rsa_public_decrypt vk (rsa_size vk) sg RSA_NO_PADDING = Some em)
    by (apply (rsa_public_decrypt_private_encrypt ver_key sig_key _ em sg
                 (rsa_size vk) Hkp Hsig); lia).
  rewrite Hdec. cbn [fst]. rewrite Hver, Lem, Hsz, Z.eqb_refl. reflexivity.
Qed.

(** X10 (a seal stays inside its frame).  When [_write_cleartext] returns
    [n], the frame holds at least the header and the two length fields and
    fits the capacity it was given; the buffer keeps its size and every
    byte from offset [n] on is as before.  The received buffer is not
    touched. *)
Theorem write_cleartext_bounded {HL : HeaderLaws} (w w1 : world) (buf_len n : Z)
    (m : list byte) (enc_key sig_key : pkey) (ty : message_type) :
  buf_len <= len (out w) ->
  _write_cleartext outptr buf_len m enc_key sig_key ty w = (Ok n, w1) ->
  HEADER_LENGTH + 4 <= n <= buf_len /\
  len (out w1) = len (out w) /\
  skipn (Z.to_nat n) (out w1) = skipn (Z.to_nat n) (out w) /\
  msg w1 = msg w.
Proof.
  intros Hout Hseal.
  rewrite _write_cleartext_run in Hseal. cbv zeta in Hseal.
  destruct (rsa_public_encrypt _ _ m _ (rng w)) as [[ct|] r1]; [|discriminate].
  destruct (pss_pad _ _ (message_digest ct) r1) as [[em|] r2]; [|discriminate].
  destruct (rsa_private_encrypt _ _ _ _) as [sg|]; [|discriminate].
  pose proof (len_nonneg ct) as Pct. pose proof (len_nonneg sg) as Psg.
  pose proof HEADER_LENGTH_nonneg as H0.
  assert (Hcap : HEADER_LENGTH + (MIN_BODY_LENGTH + len ct + len sg) <= buf_len).
  { apply _write_ok_inv in Hseal. tauto. }
  rewrite _write_run in Hseal by (cbn [out]; assumption).
  cbv zeta in Hseal. cbn [out msg rng log] in Hseal.
  set (body := MIN_BODY_LENGTH + len ct + len sg) in *.
  assert (En : n = HEADER_LENGTH + body) by congruence.
  match type of Hseal with
  | (_, ?x) = _ => assert (Ew : w1 = x) by congruence
  end.
  subst n w1. clear Hseal. cbn [out msg].
  set (hdr := header_bytes CURRENT_PROTOCOL_VERSION ty body).
  assert (Hlh : len hdr = HEADER_LENGTH) by apply header_bytes_len.
  assert (Hb : body = 4 + len ct + len sg) by (unfold body, MIN_BODY_LENGTH; lia).
  split; [lia|]. split; [|split; [|reflexivity]].
  - rewrite !len_app, Hlh, !len_htons, len_skipn by lia. lia.
  - replace (hdr ++ htons (cast_uint16 (len ct)) ++ ct ++
             htons (cast_uint16 (len sg)) ++ sg ++
             skipn (Z.to_nat (HEADER_LENGTH + body)) (out w))
      with ((hdr ++ htons (cast_uint16 (len ct)) ++ ct ++
             htons (cast_uint16 (len sg)) ++ sg) ++
            skipn (Z.to_nat (HEADER_LENGTH + body)) (out w))
      by now rewrite <- !app_assoc.
    replace (Z.to_nat (HEADER_LENGTH + body))
      with (List.length (hdr ++ htons (cast_uint16 (len ct)) ++ ct ++
                         htons (cast_uint16 (len sg)) ++ sg)) at 1.
    + apply skipn_len_app.
    + pose proof (len_htons (cast_uint16 (len ct))) as L1.
      pose proof (len_htons (cast_uint16 (len sg))) as L2.
      unfold len in *. rewrite !length_app. lia.
Qed.

(** X11 (verification and decryption commute).  On a well-formed message,
    checking the signature after a [get_cleartext] call gives the verdict
    it gives before it, and [get_cleartext] after a [check_signature] call
    returns the same value and leaves the same bytes in the output buffer
    as it does before it. *)
Theorem verify_and_open_commute (w : world) (buf : ptr) (buf_len : Z)
    (vkey dkey : pkey) :
  message_valid (msg w) -> well_formed (msg w) ->
  fst (check_signature vkey (snd (get_cleartext buf buf_len dkey w))) =
    fst (check_signature vkey w) /\
  fst (get_cleartext buf buf_len dkey (snd (check_signature vkey w))) =
    fst (get_cleartext buf buf_len dkey w) /\
  out (snd (get_cleartext buf buf_len dkey (snd (check_signature vkey w)))) =
    out (snd (get_cleartext buf buf_len dkey w)).
Proof.
  intros Hv Hwf.
  pose proof (keeps_get_cleartext buf buf_len dkey w) as Km.
  destruct (logs_check_signature vkey w) as (evs & Ew).
  set (w1 := snd (get_cleartext buf buf_len dkey w)) in *.
  assert (Hfirst : fst (check_signature vkey w1) = fst (check_signature vkey w)).
  { destruct (pkey_nonnull vkey) eqn:Hk.
    2:{ unfold check_signature. rewrite Hk. reflexivity. }
    destruct (rsa_nonnull (get_rsa_key vkey)) eqn:Hr.
    2:{ unfold check_signature. rewrite Hk, Hr. reflexivity. }
    rewrite (check_signature_run w vkey Hv Hwf Hk Hr).
    rewrite check_signature_run by (rewrite ?Km; assumption).
    rewrite Km. destruct (rsa_public_decrypt _ _ _ _); reflexivity. }
  split; [exact Hfirst|]. clear Hfirst. subst w1.
  rewrite Ew.
  destruct (pkey_nonnull dkey) eqn:Hk.
  2:{ unfold get_cleartext. rewrite Hk. split; reflexivity. }
  destruct buf.
  { unfold get_cleartext. rewrite Hk. split; reflexivity. }
  destruct Hv as (H0 & HL0 & Hb). unfold well_formed, MIN_BODY_LENGTH in Hwf.
  pose proof (ntohs_range
                (sub (msg w) (HEADER_LENGTH + 2 + wire_ciphertext_size (msg w)) 2))
    as Hss.
  fold (wire_signature_size (msg w)) in Hss.
  rewrite (get_cleartext_run w buf_len dkey) by (try assumption; lia).
  rewrite (get_cleartext_run (logged w evs) buf_len dkey)
    by (cbn [msg logged]; try assumption; lia).
  cbn [msg out logged].
  destruct (rsa_private_decrypt _ _ _ _) as [m|]; [|split; reflexivity].
  destruct (blit (out w) 0 m); split; reflexivity.
Qed.

End EnvelopeProperties.

(* ------------------------------------------------------------------ *)
(** ** The sample collaborators satisfy the laws *)

Ltac sample_fields :=
  cbn [sample_crypto pkey rsa_key entropy pkey_nonnull rsa_nonnull pkey_size
       get_rsa_key rsa_size oaep_capacity keypair message_digest
       rsa_public_encrypt rsa_private_decrypt rsa_private_encrypt
       rsa_public_decrypt pss_pad pss_verify
       sample_header message_type HEADER_LENGTH CURRENT_PROTOCOL_VERSION
       BODY_LENGTH_MAX header_bytes header_body_length].

Lemma sample_header_laws : @HeaderLaws sample_header.
Proof.
  split; sample_fields.
  - lia.
  - reflexivity.
  - intros v t n Hn. unfold sample_header_body_length, sample_header_bytes.
    change (sub (byte_of_Z v :: t :: htons (cast_uint16 n)) 2 2)
      with (htons (cast_uint16 n)).
    rewrite ntohs_htons_cast. apply Z.mod_small. lia.
Qed.

Lemma sample_rsa_laws : @RsaLaws sample_crypto.
Proof.
  split; sample_fields.
  - reflexivity.
  - intros k cap m r _ Hc Hm. unfold sample_public_encrypt.
    replace ((8 <=? cap) && (len m <=? 6)) with true; [eauto|].
    symmetry. rewrite andb_true_iff, !Z.leb_le. lia.
  - intros ek dk cap m r ct r' cap' _ He Hc.
    unfold sample_public_encrypt in He.
    destruct ((8 <=? cap) && (len m <=? 6)) eqn:E; [|discriminate].
    rewrite andb_true_iff, !Z.leb_le in E. destruct E as [_ Hm].
    assert (Ect : ct = byte_of_Z (len m) :: byte_of_Z r :: m ++ zeros (6 - len m))
      by congruence.
    subst ct. clear He. pose proof (len_nonneg m) as Pm.
    unfold sample_private_decrypt.
    rewrite Z_of_byte_of_Z, Z.mod_small by lia.
    replace ((len (byte_of_Z (len m) :: byte_of_Z r :: m ++ zeros (6 - len m)) =? 8)
             && (len m <=? 6) && (len m <=? cap')) with true.
    + now rewrite sub_prefix.
    + symmetry. rewrite !andb_true_iff, Z.eqb_eq, !Z.leb_le.
      change (byte_of_Z (len m) :: byte_of_Z r :: m ++ zeros (6 - len m))
        with ([byte_of_Z (len m); byte_of_Z r] ++ m ++ zeros (6 - len m)).
      rewrite !len_app, len_zeros by lia.
      change (len [byte_of_Z (len m); byte_of_Z r]) with 2. lia.
  - intros k cap m p r ct r' He. unfold sample_public_encrypt in He.
    destruct p; [|discriminate].
    destruct ((8 <=? cap) && (len m <=? 6)) eqn:E; [|discriminate].
    rewrite andb_true_iff, !Z.leb_le in E. pose proof (len_nonneg m) as Pm.
    assert (Ect : ct = byte_of_Z (len m) :: byte_of_Z r :: m ++ zeros (6 - len m))
      by congruence.
    subst ct. clear He.
    change (byte_of_Z (len m) :: byte_of_Z r :: m ++ zeros (6 - len m))
      with ([byte_of_Z (len m); byte_of_Z r] ++ m ++ zeros (6 - len m)).
    rewrite !len_app, len_zeros by lia.
    change (len [byte_of_Z (len m); byte_of_Z r]) with 2. lia.
  - intros k cap b p s Hs. unfold sample_raw in Hs.
    destruct p; [discriminate|].
    destruct ((len b =? 8) && (8 <=? cap)) eqn:E; [|discriminate].
    rewrite andb_true_iff, Z.eqb_eq, Z.leb_le in E.
    injection Hs as <-. lia.
Qed.

Lemma sample_rsa_empty_laws : @RsaEmptyLaws sample_crypto.
Proof.
  split; sample_fields.
  - reflexivity.
  - intros k cap blk d Hb. discriminate.
Qed.

Lemma sample_can_sign (k : Z) : @can_sign sample_crypto k.
Proof.
  intros data r. unfold can_sign. sample_fields.
  exists (sample_digest data ++ [byte_of_Z r] ++ zeros (6 - 1) ++ [xbc]), (r + 1).
  eexists. split; reflexivity.
Qed.

Lemma bytes_eqb_refl (a : list byte) : bytes_eqb a a = true.
Proof.
  unfold bytes_eqb. rewrite Nat.eqb_refl. cbn [andb].
  induction a as [|x a IH]; [reflexivity|].
  cbn [combine forallb fst snd]. now rewrite (Byte.byte_dec_lb eq_refl), IH.
Qed.

Lemma sample_rsa_sign_laws : @RsaSignLaws sample_crypto.
Proof.
  split; sample_fields.
  - reflexivity.
  - intros vk sk cap blk s cap' _ Hs Hc. unfold sample_raw in *.
    destruct ((len blk =? 8) && (8 <=? cap)) eqn:E; [|discriminate].
    rewrite andb_true_iff, Z.eqb_eq, Z.leb_le in E. destruct E as [E8 _].
    assert (Es : s = blk) by congruence. subst s.
    replace ((len blk =? 8) && (8 <=? cap')) with true; [reflexivity|].
    symmetry. rewrite andb_true_iff, Z.eqb_eq, Z.leb_le. lia.
  - intros vk sk d r em r' _ Hp. unfold sample_pss_pad in Hp.
    destruct ((8 <=? 8) && (len d <=? 6)) eqn:E; [|discriminate].
    rewrite andb_true_iff, !Z.leb_le in E. destruct E as [_ Hd].
    assert (Eem : em = d ++ [byte_of_Z r] ++ zeros (6 - len d) ++ [xbc])
      by congruence.
    clear Hp. pose proof (len_nonneg d) as Pd.
    assert (Lem : len em = 8).
    { rewrite Eem, !len_app, len_zeros by lia.
      change (len [byte_of_Z r]) with 1. change (len [xbc]) with 1. lia. }
    split; [exact Lem|].
    unfold sample_pss_verify. rewrite Lem. cbn [Z.eqb Pos.eqb andb].
    assert (E1 : sub em 0 (len d) = d) by (rewrite Eem; apply sub_prefix).
    assert (E2 : sub em 7 1 = [xbc]).
    { rewrite Eem.
      replace (d ++ [byte_of_Z r] ++ zeros (6 - len d) ++ [xbc])
        with ((d ++ [byte_of_Z r] ++ zeros (6 - len d)) ++ [xbc] ++ [])
        by now rewrite <- !app_assoc.
      apply sub_at; [|reflexivity].
      rewrite !len_app, len_zeros by lia.
      change (len [byte_of_Z r]) with 1. lia. }
    now rewrite E1, E2, !bytes_eqb_refl.
Qed.

(* ------------------------------------------------------------------ *)
(** ** Runs on the sample collaborators *)

#[local] Existing Instance sample_crypto.
#[local] Existing Instance sample_header.

Ltac by_eval :=
  repeat split; vm_compute; first [reflexivity | discriminate].

Lemma run_of_fst {A B : Type} (p : A * B) (a : A) : fst p = a -> p = (a, snd p).
Proof. destruct p. cbn. now intros ->. Defined.

(** The sealed sample message on the wire: header (version 1, type 3, body
    20), ciphertext length 8, ciphertext, signature length 8, signature. *)
Example sample_frame_bytes :
  sample_frame =
  [x01; x03; x00; x14;
   x00; x08; x02; x00; x68; x69; x00; x00; x00; x00;
   x00; x08; xd3; x01; x00; x00; x00; x00; x00; xbc].
Proof. vm_compute. reflexivity. Qed.

Example sample_rx_checks :
  fst (check_format sample_rx) = Ok tt /\
  fst (check_signature 7 sample_rx) = Ok tt /\
  fst (get_cleartext outptr 8 5 sample_rx) = Ok 2 /\
  sub (out (snd (get_cleartext outptr 8 5 sample_rx))) 0 2 = [x68; x69] /\
  fst (get_cleartext nullptr 0 5 sample_rx) = Ok 8.
Proof. vm_compute. repeat split. Qed.

(** A frame cut one byte short, with its header adjusted, is refused; a
    frame whose signature was altered passes the format check and fails
    the signature check. *)
Example sample_short_frame_refused :
  fst (check_format
         (sample_world (sample_header_bytes 1 x03 19 ++ sub sample_frame 4 19) []))
  = Throw (runtime_error "bad message length").
Proof. vm_compute. reflexivity. Qed.

Example sample_tampered_signature :
  let w := sample_world (sub sample_frame 0 23 ++ [x00]) [] in
  fst (check_format w) = Ok tt /\
  fst (check_signature 7 w) = Throw cryptographic_exception.
Proof. vm_compute. repeat split. Qed.


(** C3, as stated, fails: a ciphertext of 65536 bytes is accepted, and the
    16-bit ciphertext length written to the wire is 0. *)
Lemma write_accepts_65536_byte_ciphertext :
  let w := sample_world [] (zeros 65544) in
  let r := _write outptr 65544 (zeros 65536) [] x03 w in
  len (zeros 65536) = 65536 /\
  fst r = Ok 65544 /\
  sub (out (snd r)) 4 2 = [x00; x00] /\
  wire_ciphertext_size (out (snd r)) = 0.
Proof. vm_compute. repeat split. Qed.

Lemma seal_open_round_trip_witness :
  exists n w1,
    _write_cleartext outptr 32 [x68; x69] 5 7 x03 (sample_world [] (zeros 32))
      = (Ok n, w1) /\
    forall (w2 : world) (cap : Z),
      msg w2 = sub (out w1) 0 n ->
      len [x68; x69] <= cap -> cap <= len (out w2) ->
      fst (session_message w2) = Ok tt /\
      exists w3,
        get_cleartext outptr cap 5 w2 = (Ok (len [x68; x69]), w3) /\
        sub (out w3) 0 (len [x68; x69]) = [x68; x69].
Proof.
  apply (seal_open_round_trip (HL := sample_header_laws) (RL := sample_rsa_laws)
           (sample_world [] (zeros 32)) 32 [x68; x69] 5 7 5 x03).
  - by_eval.
  - reflexivity.
  - reflexivity.
  - reflexivity.
  - apply sample_can_sign.
  - by_eval.
  - by_eval.
  - by_eval.
  - by_eval.
  - by_eval.
Defined.


Lemma write_length_fields_wrap_witness :
  exists w',
    _write outptr 16 [x01; x02] [x03] x03 (sample_world [] (zeros 16))
      = (Ok 11, w') /\
    wire_ciphertext_size (out w') = 2.
Proof.
  destruct (write_length_fields_wrap (HL := sample_header_laws)
              (sample_world [] (zeros 16)) 16 [x01; x02] [x03] x03)
    as (w' & Hrun & _ & _ & Hcs & _); [by_eval | by_eval |].
  exists w'. split; [exact Hrun|]. apply Hcs. by_eval.
Defined.

Lemma write_cleartext_steps_witness :
  exists ct r1,
    rsa_public_encrypt (get_rsa_key 5) (len (zeros (pkey_size 5))) [x68; x69]
      RSA_PKCS1_OAEP_PADDING 0 = (Some ct, r1).
Proof.
  destruct (proj1 (@write_cleartext_steps sample_crypto sample_header
                     (sample_world [] (zeros 32))
                     (snd (@_write_cleartext sample_crypto sample_header
                             outptr 32 [x68; x69] 5 7 x03
                             (sample_world [] (zeros 32))))
                     outptr 32 24 [x68; x69] 5 7 x03))
    as (ct & r1 & em & r2 & sg & He & _).
  - apply run_of_fst. vm_compute. reflexivity.
  - exists ct, r1. exact He.
Defined.

Lemma check_signature_total_witness :
  fst (check_signature 7 sample_rx) = Ok tt \/
  fst (check_signature 7 sample_rx) = Throw cryptographic_exception.
Proof.
  destruct (check_signature_total sample_rx 7) as (Htot & _); by_eval || exact Htot.
Defined.

Lemma write_capacity_atomic_witness :
  _write outptr 8 [x01; x02] [x03] x03 (sample_world [] (zeros 8))
    = (Throw (runtime_error "buf_len"), sample_world [] (zeros 8)).
Proof.
  destruct (write_capacity_atomic (HL := sample_header_laws)
              (sample_world [] (zeros 8)) 8 [x01; x02] [x03] x03)
    as (Hshort & _); [by_eval|].
  apply Hshort. by_eval.
Defined.

Lemma get_cleartext_size_query_witness :
  get_cleartext nullptr 0 5 sample_rx = (Ok 8, sample_rx).
Proof.
  destruct (get_cleartext_size_query sample_rx 0 5) as (Hnull & _);
    [reflexivity | exact Hnull].
Defined.

Lemma check_format_progressive_witness :
  exists r evs,
    check_format sample_rx = (r, logged sample_rx evs) /\ forall c, r <> Crash c.
Proof.
  destruct (check_format_progressive sample_rx) as (r & evs & Hrun & _ & _ & _ & _ & Hc);
    [by_eval|].
  exists r, evs. split; assumption.
Defined.

Lemma zero_length_fields_fail_in_crypto_witness :
  fst (check_format (sample_world sample_empty_frame (zeros 8))) = Ok tt /\
  fst (get_cleartext outptr 8 5 (sample_world sample_empty_frame (zeros 8)))
    = Throw cryptographic_exception /\
  fst (check_signature 7 (sample_world sample_empty_frame (zeros 8)))
    = Throw cryptographic_exception.
Proof.
  destruct (zero_length_fields_fail_in_crypto (EL := sample_rsa_empty_laws)
              (sample_world sample_empty_frame (zeros 8)))
    as (Hfmt & Hopen & Hverify); [by_eval | by_eval | left; by_eval |].
  split; [exact Hfmt|]. split.
  - apply Hopen; by_eval.
  - apply Hverify; by_eval.
Defined.

Lemma session_message_invariant_witness :
  invariant (run_operations sample_operations (snd (session_message sample_rx))).
Proof.
  destruct (@session_message_invariant sample_crypto sample_header
              sample_rx (snd (session_message sample_rx)) sample_operations)
    as (_ & _ & _ & _ & Hinv & _).
  - by_eval.
  - apply run_of_fst. vm_compute. reflexivity.
  - exact Hinv.
Defined.

Lemma write_frame_layout_witness :
  exists w',
    _write outptr 16 [x01; x02] [x03] x03 (sample_world [] (zeros 16))
      = (Ok 11, w') /\
    len (out w') = len (out (sample_world [] (zeros 16))).
Proof.
  destruct (@write_frame_layout sample_crypto sample_header sample_header_laws
              (sample_world [] (zeros 16)) 16 [x01; x02] [x03] x03)
    as (w' & Hrun & _ & Hlen & _); [by_eval | by_eval |].
  exists w'. split; [exact Hrun | exact Hlen].
Defined.

Lemma write_then_parse_witness :
  exists n w',
    _write outptr 16 [x01; x02] [x03] x03 (sample_world [] (zeros 16))
      = (Ok n, w') /\
    forall w2 : world,
      msg w2 = sub (out w') 0 n ->
      fst (session_message w2) = Ok tt /\
      fst (load ciphertext 2 w2) = Ok [x01; x02].
Proof.
  destruct (@write_then_parse sample_crypto sample_header sample_header_laws
              (sample_world [] (zeros 16)) 16 [x01; x02] [x03] x03)
    as (n & w' & Hrun & Hrx); [by_eval | by_eval | by_eval | by_eval | by_eval |].
  exists n, w'. split; [exact Hrun|]. intros w2 Hmsg.
  destruct (Hrx w2 Hmsg) as (Hok & _ & _ & Hct & _).
  split; [exact Hok | exact Hct].
Defined.

Lemma parse_then_write_witness :
  exists w',
    _write outptr 24 (wire_ciphertext sample_frame) (wire_signature sample_frame)
      x07 (sample_world sample_frame (zeros 24))
      = (Ok (HEADER_LENGTH + wire_body_length sample_frame), w') /\
    sub (out w') HEADER_LENGTH (wire_body_length sample_frame)
      = sub sample_frame HEADER_LENGTH (wire_body_length sample_frame).
Proof.
  apply (@parse_then_write sample_crypto sample_header sample_header_laws
           (sample_world sample_frame (zeros 24)) 24 x07); by_eval.
Defined.

Lemma write_cleartext_failure_atomic_witness :
  out (snd (@_write_cleartext sample_crypto sample_header outptr 8 [x68; x69]
              5 7 x03 (sample_world [] (zeros 8))))
  = out (sample_world [] (zeros 8)).
Proof.
  destruct (@write_cleartext_failure_atomic sample_crypto sample_header
              (sample_world [] (zeros 8))
              (snd (@_write_cleartext sample_crypto sample_header outptr 8
                      [x68; x69] 5 7 x03 (sample_world [] (zeros 8))))
              outptr 8 [x68; x69] 5 7 x03 (runtime_error "buf_len"))
    as (Hout & _).
  - apply run_of_fst. vm_compute. reflexivity.
  - exact Hout.
Defined.

Lemma check_signature_fields_only_witness :
  fst (check_signature 7 sample_rx)
  = fst (check_signature 7 (sample_world sample_retyped_frame [])).
Proof.
  apply (@check_signature_fields_only sample_crypto sample_header
           sample_rx (sample_world sample_retyped_frame []) 7); by_eval.
Defined.

Lemma get_cleartext_ciphertext_only_witness :
  fst (get_cleartext outptr 8 5 sample_rx)
  = fst (get_cleartext outptr 8 5 (sample_world sample_unsigned_frame (zeros 8))).
Proof.
  destruct (@get_cleartext_ciphertext_only sample_crypto sample_header
              sample_rx (sample_world sample_unsigned_frame (zeros 8)) outptr 8 5)
    as (Hfst & _); [by_eval | by_eval | by_eval | by_eval | by_eval | exact Hfst].
Defined.

Lemma sealed_message_verifies_witness :
  fst (check_signature 7
         (sample_world
            (sub (out (snd (@_write_cleartext sample_crypto sample_header outptr 32
                              [x68; x69] 5 7 x03 (sample_world [] (zeros 32)))))
               0 24) []))
  = Ok tt.
Proof.
  destruct (@sealed_message_verifies sample_crypto sample_header
              sample_header_laws sample_rsa_laws sample_rsa_sign_laws
              (sample_world [] (zeros 32))
              (snd (@_write_cleartext sample_crypto sample_header outptr 32
                      [x68; x69] 5 7 x03 (sample_world [] (zeros 32))))
              32 24 [x68; x69] 5 7 7 x03)
    with (w2 := sample_world
                  (sub (out (snd (@_write_cleartext sample_crypto sample_header
                                    outptr 32 [x68; x69] 5 7 x03
                                    (sample_world [] (zeros 32)))))
                     0 24) [])
    as (_ & Hver).
  - reflexivity.
  - reflexivity.
  - reflexivity.
  - by_eval.
  - by_eval.
  - by_eval.
  - by_eval.
  - apply run_of_fst. vm_compute. reflexivity.
  - reflexivity.
  - exact Hver.
Defined.

Lemma write_cleartext_bounded_witness :
  HEADER_LENGTH + 4 <= 24 <= 32.
Proof.
  destruct (@write_cleartext_bounded sample_crypto sample_header sample_header_laws
              (sample_world [] (zeros 32))
              (snd (@_write_cleartext sample_crypto sample_header outptr 32
                      [x68; x69] 5 7 x03 (sample_world [] (zeros 32))))
              32 24 [x68; x69] 5 7 x03)
    as (Hn & _).
  - by_eval.
  - apply run_of_fst. vm_compute. reflexivity.
  - exact Hn.
Defined.

Lemma verify_and_open_commute_witness :
  fst (check_signature 7 (snd (get_cleartext outptr 8 5 sample_rx)))
  = fst (check_signature 7 sample_rx).
Proof.
  destruct (@verify_and_open_commute sample_crypto sample_header
              sample_rx outptr 8 7 5) as (Hfirst & _);
    [by_eval | by_eval | exact Hfirst].
Defined.

Lemma check_format_ignores_trailing_bytes_witness :
  fst (check_format (sample_world (sample_frame ++ [xff; xff]) (zeros 8)))
  = fst (check_format sample_rx).
Proof.
  apply (@check_format_ignores_trailing_bytes sample_crypto sample_header
           sample_rx [xff; xff]); by_eval.
Defined.
